(** * E-commerce sales dashboard: the filter-and-aggregate pipeline

    A shallow embedding of [ecommerce_dashboard.py]: the data frame loaded
    from the CSV file, the sidebar filter, the key metrics with their
    deltas, the grouped summaries and the resampled trend series.  The
    widgets, the plotting calls, the CSV download and the feedback form are
    not part of the development.

    Modelling decisions, fixed here once:
    - a data frame is the list of its rows, in row order;
    - an [Order Date] is a whole number of days since 1970-01-01 (the CSV
      holds calendar dates, which pandas parses to midnight timestamps);
    - the [Sales] and [Profit] columns are float64 in pandas.  A finite
      value is modelled by the rational it denotes and arithmetic on
      finite values is exact: rounding, overflow and the sign of zero are
      not represented.  The special values inf, -inf and NaN are
      represented, since the script can produce them.  Where rounding
      decides a property, module [Binary64] computes the same sums in
      binary64, in the order numpy and pandas add;
    - a missing cell is represented in the [Order ID] column only, where
      [nunique] skips it; the other columns are taken to be filled. *)

From Stdlib Require Import List String ZArith QArith Lia Lqa Bool.
From Stdlib Require Import Permutation Sorted.
From Stdlib Require PrimFloat Uint63.
Import ListNotations.

Set Implicit Arguments.

(** ** Python exceptions and results *)

Inductive exn : Type :=
| StopException (warning : string)  (* raised by [st.stop()], after [st.warning] *)
| ZeroDivisionError                 (* raised by [/] on Python ints *)
| IndexError                        (* raised by [DataFrame.plot] on a frame without rows *)
| AttributeError.                   (* raised by [.dt] on a column that holds no dates *)

Inductive result (A : Type) : Type :=
| Ok (a : A)
| Raise (e : exn).

Arguments Ok {A} a.
Arguments Raise {A} e.

Definition bind {A B : Type} (c : result A) (k : A -> result B) : result B :=
  match c with
  | Ok a => k a
  | Raise e => Raise e
  end.

Notation "x <- c ;; k" := (bind c (fun x => k))
  (at level 61, c at next level, right associativity).

(** ** Numbers as numpy and Python compute them *)

Module NumPy.

Local Open Scope Q_scope.

(** A float64 scalar. *)
Inductive float64 : Type :=
| Fin (q : Q)
| PosInf
| NegInf
| NaN.

Definition signed_inf (c : comparison) : float64 :=
  match c with
  | Gt => PosInf
  | Lt => NegInf
  | Eq => NaN
  end.

Definition sign (x : float64) : comparison :=
  match x with
  | Fin q => q ?= 0
  | PosInf => Gt
  | NegInf => Lt
  | NaN => Eq
  end.

Definition sign_mul (a b : comparison) : comparison :=
  match a, b with
  | Eq, _ | _, Eq => Eq
  | Gt, c => c
  | Lt, c => CompOpp c
  end.

(** [a / b] on numpy scalars: a zero divisor gives inf, -inf or NaN (with
    a RuntimeWarning), never an exception. *)
Definition true_divide (n d : Q) : float64 :=
  if Qeq_bool d 0 then signed_inf (n ?= 0) else Fin (n / d).

Definition multiply (x y : float64) : float64 :=
  match x, y with
  | NaN, _ | _, NaN => NaN
  | Fin a, Fin b => Fin (a * b)
  | _, _ => signed_inf (sign_mul (sign x) (sign y))
  end.

Definition subtract (x y : float64) : float64 :=
  match x, y with
  | NaN, _ | _, NaN => NaN
  | Fin a, Fin b => Fin (a - b)
  | PosInf, PosInf | NegInf, NegInf => NaN
  | PosInf, _ | _, NegInf => PosInf
  | NegInf, _ | _, PosInf => NegInf
  end.

(** IEEE comparisons: every comparison with NaN is false. *)
Definition less_equal (x y : float64) : bool :=
  match x, y with
  | NaN, _ | _, NaN => false
  | NegInf, _ | _, PosInf => true
  | Fin a, Fin b => Qle_bool a b
  | _, _ => false
  end.

Definition greater (x y : float64) : bool :=
  match x, y with
  | NaN, _ | _, NaN => false
  | Fin a, Fin b => negb (Qle_bool a b)
  | PosInf, PosInf | NegInf, _ | _, PosInf => false
  | PosInf, _ | _, NegInf => true
  end.

(** [Series.sum()]: 0 on an empty column.  This is the exact sum of the
    values; [Binary64.series_sum] is the rounded one. *)
Definition sum (l : list Q) : Q := fold_right Qplus 0 l.

(** [Series.mean()] of an integer column: NaN on an empty column. *)
Definition mean (l : list Z) : float64 :=
  match l with
  | [] => NaN
  | _ :: _ => Fin (inject_Z (fold_right Z.add 0%Z l) / inject_Z (Z.of_nat (List.length l)))
  end.

(** [a / b] on Python ints raises on a zero divisor. *)
Definition int_truediv (a b : Z) : result float64 :=
  if (b =? 0)%Z then Raise ZeroDivisionError else Ok (Fin (inject_Z a / inject_Z b)).

End NumPy.

Import NumPy.

(** ** Calendar: the month of a day number *)

Module Calendar.

Local Open Scope Z_scope.

(** Day number of the Gregorian date [y]-[m]-[d]. *)
Definition days_from_civil (y m d : Z) : Z :=
  let y' := if m <=? 2 then y - 1 else y in
  let era := y' / 400 in
  let yoe := y' - era * 400 in
  let mp := if m <=? 2 then m + 9 else m - 3 in
  let doy := (153 * mp + 2) / 5 + d - 1 in
  let doe := yoe * 365 + yoe / 4 - yoe / 100 + doy in
  era * 146097 + doe - 719468.

(** Year and month (1..12) of a day number. *)
Definition year_month (z : Z) : Z * Z :=
  let z := z + 719468 in
  let era := z / 146097 in
  let doe := z - era * 146097 in
  let yoe := (doe - doe / 1460 + doe / 36524 - doe / 146096) / 365 in
  let doy := doe - (365 * yoe + yoe / 4 - yoe / 100) in
  let mp := (5 * doy + 2) / 153 in
  let m := if mp <? 10 then mp + 3 else mp - 9 in
  (if m <=? 2 then yoe + era * 400 + 1 else yoe + era * 400, m).

(** Months are numbered consecutively: month 0 is January of year 0. *)
Definition month_number (z : Z) : Z :=
  let (y, m) := year_month z in y * 12 + (m - 1).

Definition month_start (p : Z) : Z := days_from_civil (p / 12) (p mod 12 + 1) 1.

(** Last day of month [p]; pandas labels a ["M"] bin with it. *)
Definition month_end (p : Z) : Z := month_start (p + 1) - 1.

End Calendar.

(** ** The data frame *)

(** One row of [ecommerce_data.csv], with the columns the script reads. *)
Record csv_row : Type := CsvRow {
  csv_order_id : option string;
  csv_order_date : Z;
  csv_ship_date : Z;
  csv_segment : string;
  csv_region : string;
  csv_category : string;
  csv_product_name : string;
  csv_sales : Q;
  csv_profit : Q
}.

(** One row of [df]: the CSV columns and the derived ["Delivery Time"]. *)
Record row : Type := Row {
  order_id : option string;
  order_date : Z;
  ship_date : Z;
  segment : string;
  region : string;
  category : string;
  product_name : string;
  sales : Q;
  profit : Q;
  delivery_time : Z
}.

(** Lines 34-35 on a file with rows; what the script does on a file
    without rows is in [main]. *)
Definition load_data (csv : list csv_row) : list row :=
  map (fun c =>
         {| order_id := csv_order_id c;
            order_date := csv_order_date c;
            ship_date := csv_ship_date c;
            segment := csv_segment c;
            region := csv_region c;
            category := csv_category c;
            product_name := csv_product_name c;
            sales := csv_sales c;
            profit := csv_profit c;
            delivery_time := (csv_ship_date c - csv_order_date c)%Z |})
      csv.

(** ** Sidebar filters *)

(** What the three sidebar widgets return, once a date range is complete.
    While a range is being picked [st.date_input] returns one date only
    and line 63 raises; that state of the widget is not represented. *)
Record criteria : Type := Criteria {
  date_start : Z;
  date_end : Z;
  selected_segments : list string;
  selected_regions : list string
}.

(** [x in selection] / [Series.isin]. *)
Definition isin (x : string) (selection : list string) : bool :=
  existsb (String.eqb x) selection.

(** [not selection] on a Python list. *)
Definition is_empty (selection : list string) : bool :=
  match selection with [] => true | _ :: _ => false end.

Definition incomplete_warning : string :=
  "⚠️ Please select at least one Segment and one Region to proceed."%string.

(** Lines 56-58: warn and stop unless both selections are non-empty. *)
Definition validation (c : criteria) : result unit :=
  if is_empty (selected_segments c) || is_empty (selected_regions c)
  then Raise (StopException incomplete_warning)
  else Ok tt.

(** The boolean mask of lines 62-65. *)
Definition mask (c : criteria) (r : row) : bool :=
  (date_start c <=? order_date r)%Z
  && (order_date r <=? date_end c)%Z
  && isin (segment r) (selected_segments c)
  && isin (region r) (selected_regions c).

(** Lines 61-66: boolean indexing builds a new frame of the rows whose mask
    is true, in their original order. *)
Definition filtered_df (df : list row) (c : criteria) : list row :=
  filter (mask c) df.

(** The filter engine as the script runs it: validation, then the filter. *)
Definition apply (df : list row) (c : criteria) : result (list row) :=
  _ <- validation c ;;
  Ok (filtered_df df c).

(** ** Key metrics *)

(** The cells of a column that are filled. *)
Definition dropna (l : list (option string)) : list string :=
  flat_map (fun cell => match cell with Some x => [x] | None => [] end) l.

(** [Series.nunique()]: the number of distinct filled cells, a Python int. *)
Definition nunique (l : list (option string)) : Z :=
  Z.of_nat (List.length (nodup string_dec (dropna l))).

Record kpi : Type := Kpi {
  total_sales : Q;
  total_profit : Q;
  total_orders : Z;
  avg_delivery : float64
}.

(** Lines 83-86 on [df] and lines 88-91 on [filtered_df]. *)
Definition summarize (rows : list row) : kpi :=
  {| total_sales := sum (map sales rows);
     total_profit := sum (map profit rows);
     total_orders := nunique (map order_id rows);
     avg_delivery := mean (map delivery_time rows) |}.

Record deltas : Type := Deltas {
  sales_delta : float64;
  profit_delta : float64;
  orders_delta : float64;
  delivery_delta : float64
}.

(** [((current - overall) / overall) * 100] on numpy scalars (lines 94-95). *)
Definition percent_delta (current overall : Q) : float64 :=
  multiply (true_divide (current - overall)%Q overall) (Fin 100).

(** The same expression on Python ints (line 96). *)
Definition int_percent_delta (current overall : Z) : result float64 :=
  q <- int_truediv (current - overall) overall ;;
  Ok (multiply q (Fin 100)).

(** Lines 94-97, in the order the script evaluates them. *)
Definition compare (overall current : kpi) : result deltas :=
  let sd := percent_delta (total_sales current) (total_sales overall) in
  let pd := percent_delta (total_profit current) (total_profit overall) in
  od <- int_percent_delta (total_orders current) (total_orders overall) ;;
  let dd := subtract (avg_delivery current) (avg_delivery overall) in
  Ok {| sales_delta := sd; profit_delta := pd; orders_delta := od; delivery_delta := dd |}.

(** ** Grouped summaries *)

Section GroupBy.

Context {K V : Type}.
Variable K_dec : forall a b : K, {a = b} + {a <> b}.
Variable K_leb : K -> K -> bool.
Variable key : row -> K.
Variable agg : list row -> V.

Fixpoint insert_key (k : K) (ks : list K) : list K :=
  match ks with
  | [] => [k]
  | k' :: ks' => if K_leb k k' then k :: ks else k' :: insert_key k ks'
  end.

Definition sort_keys (ks : list K) : list K := fold_right insert_key [] ks.

(** The group keys: the distinct values of the key column, ascending
    ([groupby] sorts its keys). *)
Definition group_keys (rows : list row) : list K :=
  sort_keys (nodup K_dec (map key rows)).

Definition in_group (k : K) (r : row) : bool :=
  if K_dec (key r) k then true else false.

(** [rows.groupby(key)[...].agg()]: one entry per group key. *)
Definition groupby (rows : list row) : list (K * V) :=
  map (fun k => (k, agg (filter (in_group k) rows))) (group_keys rows).

Variable by_ : V -> Q.

Fixpoint insert_desc (x : K * V) (l : list (K * V)) : list (K * V) :=
  match l with
  | [] => [x]
  | y :: l' =>
      if Qle_bool (by_ (snd y)) (by_ (snd x)) then x :: l else y :: insert_desc x l'
  end.

(** [sort_values(by=..., ascending=False)].  Entries with equal values
    keep their order; pandas does not promise an order for them. *)
Definition sort_values_desc (l : list (K * V)) : list (K * V) :=
  fold_right insert_desc [] l.

(** [head(n)] for a count [n]. *)
Definition head (n : nat) (l : list (K * V)) : list (K * V) := firstn n l.

(** Never increasing along the sequence. *)
Definition desc (a b : K * V) : Prop := (by_ (snd b) <= by_ (snd a))%Q.

(** The sum of a column over one group. *)
Definition group_sum (v : row -> Q) (rows : list row) (k : K) : Q :=
  sum (map v (filter (in_group k) rows)).

End GroupBy.

Inductive dimension : Type := Region | Category | ProductName | Segment.

Definition column (d : dimension) : row -> string :=
  match d with
  | Region => region
  | Category => category
  | ProductName => product_name
  | Segment => segment
  end.

Inductive metric : Type := Sales | Profit.

Definition value (m : metric) : row -> Q :=
  match m with
  | Sales => sales
  | Profit => profit
  end.

Definition id_Q (q : Q) : Q := q.

(** [rows.groupby(d)[m].sum()], sorted descending by the sum: the shape of
    [region_sales] (line 134), [category_sales] (line 142) and of
    [top_products] before [head] (lines 151-152). *)
Definition group_by (rows : list row) (d : dimension) (m : metric) : list (string * Q) :=
  sort_values_desc id_Q
    (groupby string_dec String.leb (column d) (fun g => sum (map (value m) g)) rows).

Definition top (l : list (string * Q)) (n : nat) : list (string * Q) := head n l.

Definition region_sales (rows : list row) := group_by rows Region Sales.
Definition category_sales (rows : list row) := group_by rows Category Sales.
Definition top_products (rows : list row) := top (group_by rows ProductName Profit) 10.

(** Lines 161-164: sales and profit per segment, descending by sales. *)
Definition segment_summary (rows : list row) : list (string * (Q * Q)) :=
  sort_values_desc fst
    (groupby string_dec String.leb segment
       (fun g => (sum (map sales g), sum (map profit g))) rows).

Definition pair_dec (a b : string * string) : {a = b} + {a <> b}.
Proof. decide equality; apply string_dec. Defined.

Definition pair_leb (a b : string * string) : bool :=
  match String.compare (fst a) (fst b) with
  | Lt => true
  | Eq => String.leb (snd a) (snd b)
  | Gt => false
  end.

(** Lines 172-175: sales per (segment, category), in key order. *)
Definition segment_category (rows : list row) : list (string * string * Q) :=
  groupby pair_dec pair_leb (fun r => (segment r, category r))
    (fun g => sum (map sales g)) rows.

(** ** Trend series *)

Inductive granularity : Type := Monthly | Daily.

(** The bin a day falls in: the day itself, or its month. *)
Definition bin (g : granularity) (day : Z) : Z :=
  match g with
  | Daily => day
  | Monthly => Calendar.month_number day
  end.

(** The timestamp pandas labels a bin with: the day, or the month's last day. *)
Definition label (g : granularity) (p : Z) : Z :=
  match g with
  | Daily => p
  | Monthly => Calendar.month_end p
  end.

Definition bins_between (lo hi : Z) : list Z :=
  map (fun i => (lo + Z.of_nat i)%Z) (seq 0 (Z.to_nat (hi - lo + 1))).

Definition in_bin (g : granularity) (p : Z) (r : row) : bool :=
  (bin g (order_date r) =? p)%Z.

Record trend_point : Type := TrendPoint {
  point_date : Z;
  point_sales : Q;
  point_profit : Q
}.

(** The entry of bin [p]: its label and the sums over the rows in it. *)
Definition point (rows : list row) (g : granularity) (p : Z) : trend_point :=
  let members := filter (in_bin g p) rows in
  {| point_date := label g p;
     point_sales := sum (map sales members);
     point_profit := sum (map profit members) |}.

(** Lines 116-119: [set_index("Order Date").resample(g)[["Sales",
    "Profit"]].sum().reset_index()].  pandas emits every bin from the one
    of the earliest row to the one of the latest row; the sum of a bin
    without rows is 0. *)
Definition resample (rows : list row) (g : granularity) : list trend_point :=
  match map (fun r => bin g (order_date r)) rows with
  | [] => []
  | b :: bs =>
      let lo := fold_right Z.min b bs in
      let hi := fold_right Z.max b bs in
      map (point rows g) (bins_between lo hi)
  end.

(** ** The script *)

Record toggles : Type := Toggles {
  show_region_chart : bool;
  show_category_chart : bool;
  show_top_products_chart : bool;
  show_segment_chart : bool;
  time_granularity : granularity
}.

(** What one run of the script hands to the page. *)
Record view : Type := View {
  raw_data : list row;
  metrics : kpi;
  metric_deltas : deltas;
  time_data : list trend_point;
  region_chart : option (list (string * Q));
  category_chart : option (list (string * Q));
  top_products_chart : option (list (string * Q));
  segment_chart : option (list (string * (Q * Q)));
  segment_category_chart : list (string * string * Q)
}.

Definition when {A : Type} (b : bool) (a : A) : option A :=
  if b then Some a else None.

(** Line 166: [DataFrame.plot(kind='barh')] raises on a frame without rows.
    The seaborn calls of the other charts accept one. *)
Definition plot_barh {A : Type} (data : list A) : result unit :=
  match data with
  | [] => Raise IndexError
  | _ :: _ => Ok tt
  end.

Definition dashboard (df : list row) (c : criteria) (t : toggles) : result view :=
  _ <- validation c ;;
  let filtered := filtered_df df c in
  d <- compare (summarize df) (summarize filtered) ;;
  _ <- (if show_segment_chart t then plot_barh (segment_summary filtered) else Ok tt) ;;
  Ok {| raw_data := filtered;
        metrics := summarize filtered;
        metric_deltas := d;
        time_data := resample filtered (time_granularity t);
        region_chart := when (show_region_chart t) (region_sales filtered);
        category_chart := when (show_category_chart t) (category_sales filtered);
        top_products_chart := when (show_top_products_chart t) (top_products filtered);
        segment_chart := when (show_segment_chart t) (segment_summary filtered);
        segment_category_chart := segment_category filtered |}.

(** The script from the file on.  In a file without rows pandas finds no
    dates in the two date columns and line 35 raises. *)
Definition main (csv : list csv_row) (c : criteria) (t : toggles) : result view :=
  match csv with
  | [] => Raise AttributeError
  | _ :: _ => dashboard (load_data csv) c t
  end.

(** ** The scenario of two orders *)

Module Scenario.

Definition d (y m dd : Z) : Z := Calendar.days_from_civil y m dd.

Definition csv : list csv_row :=
  [ CsvRow (Some "A-1"%string) (d 2024 1 5) (d 2024 1 8) "Consumer" "East" "Furniture" "Chair" 100 20;
    CsvRow (Some "A-2"%string) (d 2024 2 10) (d 2024 2 12) "Consumer" "East" "Technology" "Phone" 200 (-10) ].

Definition crit : criteria :=
  Criteria (d 2024 1 1) (d 2024 2 28) ["Consumer"%string] ["East"%string].

Definition all_charts : toggles := Toggles true true true true Monthly.

End Scenario.

(** ** Vocabulary of the properties *)

(** The predicate of the filter, in the words of the specification. *)
Definition in_criteria (c : criteria) (r : row) : Prop :=
  (date_start c <= order_date r <= date_end c)%Z
  /\ In (segment r) (selected_segments c)
  /\ In (region r) (selected_regions c).

(** [Kept c df out]: [out] is [df] with exactly the rows outside the
    criteria removed, the others left in place. *)
Inductive Kept (c : criteria) : list row -> list row -> Prop :=
| Kept_nil : Kept c [] []
| Kept_keep r df out : in_criteria c r -> Kept c df out -> Kept c (r :: df) (r :: out)
| Kept_drop r df out : ~ in_criteria c r -> Kept c df out -> Kept c (r :: df) out.

Definition complete (c : criteria) : Prop :=
  selected_segments c <> [] /\ selected_regions c <> [].

(** Number of groups: the distinct values of the grouping column. *)
Definition distinct_groups (rows : list row) (d : dimension) : nat :=
  List.length (nodup string_dec (map (column d) rows)).

(** The sales delta the script shows for a data frame and a selection. *)
Definition sales_delta_of (df : list row) (c : criteria) : float64 :=
  percent_delta (total_sales (summarize (filtered_df df c)))
                (total_sales (summarize df)).

(** A data frame whose [Order ID] cells are all missing. *)
Definition unnumbered : list row :=
  [ Row None (Scenario.d 2024 1 5) (Scenario.d 2024 1 8)
        "Consumer" "East" "Furniture" "Chair" 100 20 3;
    Row None (Scenario.d 2024 2 10) (Scenario.d 2024 2 12)
        "Consumer" "East" "Technology" "Phone" 200 (-10) 2 ].

(** One order without sales, selected by the filter. *)
Definition free_order : list row :=
  [ Row (Some "A-1"%string) 0 0 "Consumer" "East" "Furniture" "Chair" 0 0 0 ].

Definition free_order_criteria : criteria :=
  Criteria 0 0 ["Consumer"%string] ["East"%string].

(** Two orders, two days apart. *)
Definition gap_rows : list row :=
  [ Row (Some "A-1"%string) (Scenario.d 2024 1 5) (Scenario.d 2024 1 8)
        "Consumer" "East" "Furniture" "Chair" 100 20 3;
    Row (Some "A-2"%string) (Scenario.d 2024 1 7) (Scenario.d 2024 1 9)
        "Consumer" "East" "Technology" "Phone" 200 (-10) 2 ].

(** The first and the last day of month [p] are days of month [p]. *)
Definition month_ok (p : Z) : bool :=
  ((Calendar.month_number (Calendar.month_start p) =? p)
   && (Calendar.month_number (Calendar.month_end p) =? p))%Z.

(** The scenario with no region selected. *)
Definition no_region : criteria :=
  Criteria (Scenario.d 2024 1 1) (Scenario.d 2024 2 28) ["Consumer"%string] [].

(** The scenario with a date range after every order. *)
Definition next_year : criteria :=
  Criteria (Scenario.d 2025 1 1) (Scenario.d 2025 12 31) ["Consumer"%string] ["East"%string].

(** The scenario restricted to January 2024. *)
Definition january : criteria :=
  Criteria (Scenario.d 2024 1 1) (Scenario.d 2024 1 31) ["Consumer"%string] ["East"%string].

(** ** The sums in binary64 *)

Module Binary64.

Import PrimFloat.
Local Open Scope float_scope.

Definition of_Z (z : Z) : float :=
  if (z <? 0)%Z then - of_uint63 (Uint63.of_Z (- z)) else of_uint63 (Uint63.of_Z z).

(** A decimal cell of the file as [read_csv] reads it: the float64 nearest
    to it (for numerators and denominators below 2^53). *)
Definition parse (q : Q) : float := of_Z (Qnum q) / of_Z (Z.pos (Qden q)).

Definition add_all (acc : float) (l : list float) : float := fold_left add l acc.

(** [r[j] += a[i + j]] for the eight lanes. *)
Fixpoint add_lanes (r l : list float) : list float :=
  match r, l with
  | x :: r', y :: l' => (x + y) :: add_lanes r' l'
  | _, _ => r
  end.

Fixpoint lanes (fuel : nat) (r l : list float) : list float :=
  match fuel with
  | O => r
  | S fuel' =>
      match l with
      | [] => r
      | _ :: _ => lanes fuel' (add_lanes r (firstn 8 l)) (skipn 8 l)
      end
  end.

Definition combine8 (r : list float) : float :=
  match r with
  | [r0; r1; r2; r3; r4; r5; r6; r7] => ((r0 + r1) + (r2 + r3)) + ((r4 + r5) + (r6 + r7))
  | _ => add_all 0 r
  end.

(** A block of 8 to 128 values: eight running sums over the multiples of
    eight, combined in pairs, then the rest added one by one. *)
Definition block (l : list float) : float :=
  let n := List.length l in
  let m := (n - n mod 8)%nat in
  let body := firstn m l in
  add_all (combine8 (lanes n (firstn 8 body) (skipn 8 body))) (skipn m l).

(** numpy's [pairwise_sum]: fewer than 8 values are added one by one, up
    to 128 values as a block, more are split in two halves. *)
Fixpoint pairwise (fuel : nat) (l : list float) : float :=
  let n := List.length l in
  if (n <? 8)%nat then add_all 0 l
  else if (n <=? 128)%nat then block l
  else match fuel with
       | O => block l
       | S fuel' =>
           let n2 := (n / 2 - (n / 2) mod 8)%nat in
           pairwise fuel' (firstn n2 l) + pairwise fuel' (skipn n2 l)
       end.

(** [Series.sum()] on a float64 column (the reduction adds the pairwise
    sum to its start value 0, which changes the sign of a zero at most). *)
Definition series_sum (l : list float) : float := pairwise (List.length l) l.

(** One step of pandas' [group_sum]: Kahan summation. *)
Definition kahan_step (s : float * float) (val : float) : float * float :=
  let (sumx, compensation) := s in
  let y := val - compensation in
  let t := sumx + y in
  let c := t - sumx - y in
  (t, if eqb c c then c else 0).

(** [groupby(...)[...].sum()] for one group. *)
Definition group_sum (l : list float) : float := fst (fold_left kahan_step l (0, 0)).

Definition value64 (m : metric) (r : row) : float := parse (value m r).

(** Lines 83 and 88 in binary64. *)
Definition total_sales (rows : list row) : float := series_sum (map (value64 Sales) rows).

(** Line 94 in binary64. *)
Definition percent_delta (current overall : float) : float :=
  (current - overall) / overall * 100.

Definition sales_delta_of (df : list row) (c : criteria) : float :=
  percent_delta (total_sales (filtered_df df c)) (total_sales df).

Fixpoint insert_desc (x : string * float) (l : list (string * float)) : list (string * float) :=
  match l with
  | [] => [x]
  | y :: l' => if leb (snd y) (snd x) then x :: l else y :: insert_desc x l'
  end.

(** Lines 134 and 142 in binary64. *)
Definition group_by (rows : list row) (d : dimension) (m : metric) : list (string * float) :=
  fold_right insert_desc []
    (groupby string_dec String.leb (column d) (fun g => group_sum (map (value64 m) g)) rows).

End Binary64.

(** Three orders in two regions, for the group sums in binary64. *)
Definition three_orders : list row :=
  [ Row (Some "A-1"%string) 0 0 "Consumer" "East" "Furniture" "Chair" (1 # 10) 0 0;
    Row (Some "A-2"%string) 0 0 "Consumer" "West" "Furniture" "Desk" (2 # 10) 0 0;
    Row (Some "A-3"%string) 0 0 "Consumer" "West" "Furniture" "Lamp" (3 # 10) 0 0 ].

(** Eight orders, five of them free and in another region, for the totals
    in binary64. *)
Definition eight_orders : list row :=
  [ Row (Some "B-1"%string) 0 0 "Consumer" "East" "Furniture" "Chair" (1 # 10) 0 0;
    Row (Some "B-2"%string) 0 0 "Consumer" "West" "Furniture" "Sample" 0 0 0;
    Row (Some "B-3"%string) 0 0 "Consumer" "East" "Furniture" "Desk" (2 # 10) 0 0;
    Row (Some "B-4"%string) 0 0 "Consumer" "East" "Furniture" "Lamp" (3 # 10) 0 0;
    Row (Some "B-5"%string) 0 0 "Consumer" "West" "Furniture" "Sample" 0 0 0;
    Row (Some "B-6"%string) 0 0 "Consumer" "West" "Furniture" "Sample" 0 0 0;
    Row (Some "B-7"%string) 0 0 "Consumer" "West" "Furniture" "Sample" 0 0 0;
    Row (Some "B-8"%string) 0 0 "Consumer" "West" "Furniture" "Sample" 0 0 0 ].

(** The selection of the East region alone. *)
Definition east_only : criteria :=
  Criteria 0 0 ["Consumer"%string] ["East"%string].

(** The toggles with every optional chart off. *)
Definition no_charts : toggles := Toggles false false false false Monthly.

(** ** Sidebar defaults *)

(** [Series.unique()]: the distinct values, in order of first appearance. *)
Fixpoint unique (l : list string) : list string :=
  match l with
  | [] => []
  | x :: l' => x :: remove string_dec x (unique l')
  end.

(** Line 44: the earliest and the latest order date; there is none (NaT)
    in a frame without rows. *)
Definition min_date (df : list row) : option Z :=
  match map order_date df with
  | [] => None
  | d :: ds => Some (fold_right Z.min d ds)
  end.

Definition max_date (df : list row) : option Z :=
  match map order_date df with
  | [] => None
  | d :: ds => Some (fold_right Z.max d ds)
  end.

(** Lines 48 and 52: the options of the two multiselect widgets. *)
Definition segments (df : list row) : list string := unique (map segment df).
Definition regions (df : list row) : list string := unique (map region df).

(** The sidebar with the date range left at its default (line 45) and
    every option of both widgets selected. *)
Definition select_all (df : list row) : option criteria :=
  match min_date df, max_date df with
  | Some lo, Some hi => Some (Criteria lo hi (segments df) (regions df))
  | _, _ => None
  end.

(** The segment and region part of the mask (lines 64-65). *)
Definition selection_mask (segs regs : list string) (r : row) : bool :=
  isin (segment r) segs && isin (region r) regs.

(** [narrower c1 c2]: the date range of [c1] lies in that of [c2] and the
    selections of [c1] are among those of [c2]. *)
Definition narrower (c1 c2 : criteria) : Prop :=
  (date_start c2 <= date_start c1)%Z
  /\ (date_end c1 <= date_end c2)%Z
  /\ incl (selected_segments c1) (selected_segments c2)
  /\ incl (selected_regions c1) (selected_regions c2).

(** ** Feedback form *)

Module Feedback.

(** A Python [str]: the list of its code points. *)
Definition text : Type := list N.

Definition of_string (s : string) : text :=
  map Ascii.N_of_ascii (list_ascii_of_string s).

Definition comma : N := 44.
Definition semicolon : N := 59.
Definition newline : N := 10.

(** [str.isspace] on one code point. *)
Definition isspace (c : N) : bool :=
  ((9 <=? c) && (c <=? 13)
   || (28 <=? c) && (c <=? 32)
   || (c =? 133) || (c =? 160) || (c =? 5760)
   || (8192 <=? c) && (c <=? 8202)
   || (c =? 8232) || (c =? 8233) || (c =? 8239) || (c =? 8287) || (c =? 12288))%N.

Fixpoint lstrip (t : text) : text :=
  match t with
  | [] => []
  | c :: t' => if isspace c then lstrip t' else t
  end.

Definition rstrip (t : text) : text := rev (lstrip (rev t)).

(** [feedback.strip()] *)
Definition strip (t : text) : text := rstrip (lstrip t).

(** [feedback.replace(',', ';')] *)
Definition replace_comma (t : text) : text :=
  map (fun c => if (c =? comma)%N then semicolon else c) t.

(** What [datetime.now()] returns. *)
Record datetime : Type := Datetime {
  year : nat;
  month : nat;
  day : nat;
  hour : nat;
  minute : nat;
  second : nat
}.

Definition digit (n : nat) : N := (48 + N.of_nat (n mod 10))%N.

Definition pad2 (n : nat) : text := [digit (n / 10); digit n].

Definition pad4 (n : nat) : text :=
  [digit (n / 1000); digit (n / 100); digit (n / 10); digit n].

(** [strftime("%Y-%m-%d %H:%M:%S")]: 19 characters for the years from 1000
    to 9999, the last a [datetime] can hold. *)
Definition strftime (now : datetime) : text :=
  pad4 (year now) ++ [45%N] ++ pad2 (month now) ++ [45%N] ++ pad2 (day now)
  ++ [32%N] ++ pad2 (hour now) ++ [58%N] ++ pad2 (minute now)
  ++ [58%N] ++ pad2 (second now).

(** The line written when the file is created (line 208). *)
Definition header : text := of_string "Timestamp,Feedback" ++ [newline].

(** The line appended for one feedback (line 212). *)
Definition entry (now : datetime) (feedback : text) : text :=
  strftime now ++ [comma] ++ replace_comma feedback ++ [newline].

(** [st.success] or [st.warning] of lines 214 and 216. *)
Inductive notice : Type := Success | Warning.

(** Lines 203-216.  [file] is the content of [feedback.csv], [None] when
    the file does not exist; the result is the content afterwards and the
    notice shown, if any. *)
Definition submit (pressed : bool) (now : datetime) (feedback : text)
    (file : option text) : option text * option notice :=
  if pressed then
    match strip feedback with
    | _ :: _ =>
        let existing := match file with
                        | None => header
                        | Some content => content
                        end in
        (Some (existing ++ entry now feedback), Some Success)
    | [] => (file, Some Warning)
    end
  else (file, None).

(** One press of the button: the time of the press and the text entered. *)
Definition submission : Type := datetime * text.

(** The file after a series of presses. *)
Definition submit_all (l : list submission) (file : option text) : option text :=
  fold_left (fun f s => fst (submit true (fst s) (snd s) f)) l file.

(** The submissions that are written: those with a character that is not
    whitespace. *)
Definition accepted (l : list submission) : list submission :=
  filter (fun s => existsb (fun c => negb (isspace c)) (snd s)) l.

Definition count (c : N) (t : text) : nat := count_occ N.eq_dec t c.

End Feedback.

(** One run of the whole script: the dashboard, then the feedback form.
    The form is reached only when the lines before it have not raised. *)
Definition script (df : list row) (c : criteria) (t : toggles)
    (pressed : bool) (now : Feedback.datetime) (feedback : Feedback.text)
    (file : option Feedback.text)
  : result (view * option Feedback.notice) * option Feedback.text :=
  match dashboard df c t with
  | Raise e => (Raise e, file)
  | Ok v =>
      let (file', shown) := Feedback.submit pressed now feedback file in
      (Ok (v, shown), file')
  end.

(** * Properties *)

(** ** The model on the scenario *)

(** The run on the two orders: both pass the filter, the monthly series has
    the two months, labelled with their last days. *)
Example scenario_run :
  exists v,
    main Scenario.csv Scenario.crit Scenario.all_charts = Ok v
    /\ map delivery_time (raw_data v) = [3; 2]%Z
    /\ time_data v
       = [ TrendPoint (Scenario.d 2024 1 31) 100 20;
           TrendPoint (Scenario.d 2024 2 29) 200 (-10) ]
    /\ region_chart v = Some [("East"%string, 300%Q)]
    /\ top_products_chart v = Some [("Chair"%string, 20%Q); ("Phone"%string, (-10)%Q)].
Proof. eexists. split; [reflexivity|]. vm_compute. repeat split. Qed.

(** Overall sales 1000 and filtered sales 300: a delta of -70 percent. *)
Example scenario_delta :
  exists q, percent_delta 300 1000 = Fin q /\ (q == -70)%Q.
Proof. eexists. split; reflexivity. Qed.

(** From January 1990 to December 2039, the first and the last day of every
    month fall in that month. *)
Example calendar_months :
  forallb month_ok (bins_between (1990 * 12) (2039 * 12 + 11)) = true.
Proof. vm_compute. reflexivity. Qed.

(** ** The filter *)

Lemma isin_In x selection : isin x selection = true <-> In x selection.
Proof.
  unfold isin. rewrite existsb_exists. split.
  - intros [y [Hy Heq]]. apply String.eqb_eq in Heq. now subst.
  - intros H. exists x. split; [assumption | apply String.eqb_refl].
Qed.

Lemma mask_in_criteria c r : mask c r = true <-> in_criteria c r.
Proof.
  unfold mask, in_criteria.
  rewrite !andb_true_iff, !isin_In, !Z.leb_le. tauto.
Qed.

Lemma Kept_functional c df : forall a b, Kept c df a -> Kept c df b -> a = b.
Proof.
  induction df as [|r df IH]; intros a b Ha Hb.
  - inversion Ha; inversion Hb; reflexivity.
  - inversion Ha; subst; inversion Hb; subst;
      try contradiction; try f_equal; auto.
Qed.

Lemma filtered_df_Kept c df : Kept c df (filtered_df df c).
Proof.
  induction df as [|r df IH]; simpl.
  - constructor.
  - destruct (mask c r) eqn:E.
    + apply Kept_keep; [now apply mask_in_criteria | exact IH].
    + apply Kept_drop; [| exact IH].
      intros H. apply mask_in_criteria in H. congruence.
Qed.

Lemma filtered_df_In c df r :
  In r (filtered_df df c) <-> In r df /\ in_criteria c r.
Proof. unfold filtered_df. now rewrite filter_In, mask_in_criteria. Qed.

Lemma filtered_df_idempotent c df :
  filtered_df (filtered_df df c) c = filtered_df df c.
Proof.
  unfold filtered_df. induction df as [|r df IH]; simpl; [reflexivity|].
  destruct (mask c r) eqn:E; simpl; [rewrite E, IH|]; auto.
Qed.

Lemma validation_complete c : complete c -> validation c = Ok tt.
Proof.
  unfold complete, validation. intros [Hs Hr].
  destruct (selected_segments c); [congruence|].
  destruct (selected_regions c); [congruence|]. reflexivity.
Qed.

Lemma validation_incomplete c :
  selected_segments c = [] \/ selected_regions c = [] ->
  validation c = Raise (StopException incomplete_warning).
Proof.
  unfold validation. intros [H | H]; rewrite H; simpl; [reflexivity|].
  now rewrite orb_true_r.
Qed.

(** C3. With a segment and a region selected, the filter returns the rows
    of [df] that lie in the date range (bounds included) and whose segment
    and region are selected: these rows and no others, in the order they
    have in [df].  [df] is a value, the filter builds a new list. *)
Theorem apply_keeps_exactly df c :
  complete c ->
  exists kept,
    apply df c = Ok kept
    /\ Kept c df kept
    /\ (forall r, In r kept <-> In r df /\ in_criteria c r).
Proof.
  intros Hc. exists (filtered_df df c). unfold apply.
  rewrite (validation_complete Hc). simpl.
  split; [reflexivity | split].
  - apply filtered_df_Kept.
  - intros r. apply filtered_df_In.
Qed.

Lemma apply_keeps_exactly_witness :
  complete Scenario.crit
  /\ exists kept,
      apply (load_data Scenario.csv) Scenario.crit = Ok kept
      /\ Kept Scenario.crit (load_data Scenario.csv) kept
      /\ (forall r, In r kept
                    <-> In r (load_data Scenario.csv) /\ in_criteria Scenario.crit r).
Proof.
  assert (Hc : complete Scenario.crit) by (split; discriminate).
  split; [exact Hc | exact (apply_keeps_exactly (load_data Scenario.csv) Hc)].
Defined.

(** C7. Filtering the filtered rows again with the same criteria gives
    the same rows. *)
Theorem apply_idempotent df c :
  complete c ->
  exists kept, apply df c = Ok kept /\ apply kept c = Ok kept.
Proof.
  intros Hc. exists (filtered_df df c). unfold apply.
  rewrite (validation_complete Hc). simpl.
  now rewrite filtered_df_idempotent.
Qed.

Lemma apply_idempotent_witness :
  complete Scenario.crit
  /\ exists kept,
      apply (load_data Scenario.csv) Scenario.crit = Ok kept
      /\ apply kept Scenario.crit = Ok kept.
Proof.
  assert (Hc : complete Scenario.crit) by (split; discriminate).
  split; [exact Hc | exact (apply_idempotent (load_data Scenario.csv) Hc)].
Defined.

(** C5. With no segment or no region selected the script stops at the
    validation: the filter engine and the whole run end in the stop
    exception, and no view is produced. *)
Theorem incomplete_criteria_halts df c t :
  selected_segments c = [] \/ selected_regions c = [] ->
  apply df c = Raise (StopException incomplete_warning)
  /\ dashboard df c t = Raise (StopException incomplete_warning)
  /\ (forall v, dashboard df c t <> Ok v).
Proof.
  intros H. unfold apply, dashboard.
  rewrite (validation_incomplete c H). simpl.
  repeat split. discriminate.
Qed.

Lemma incomplete_criteria_halts_witness :
  let df := load_data Scenario.csv in
  selected_regions no_region = []
  /\ apply df no_region = Raise (StopException incomplete_warning)
  /\ dashboard df no_region Scenario.all_charts = Raise (StopException incomplete_warning)
  /\ (forall v, dashboard df no_region Scenario.all_charts <> Ok v).
Proof.
  split; [reflexivity|].
  exact (incomplete_criteria_halts (load_data Scenario.csv) no_region
           Scenario.all_charts (or_intror eq_refl)).
Defined.

(** ** Sums *)

Local Open Scope Q_scope.

Lemma sum_perm l l' : Permutation l l' -> sum l == sum l'.
Proof.
  induction 1; simpl.
  - reflexivity.
  - now rewrite IHPermutation.
  - ring.
  - now rewrite IHPermutation1.
Qed.

Lemma sum_zeros {A : Type} (l : list A) : sum (map (fun _ => 0) l) == 0.
Proof. induction l as [|a l IH]; simpl; [reflexivity | rewrite IH; ring]. Qed.

Lemma sum_nonneg l : (forall q, In q l -> 0 <= q) -> 0 <= sum l.
Proof.
  induction l as [|a l IH]; simpl; intros H.
  - apply Qle_refl.
  - assert (0 <= a) by (apply H; now left).
    assert (0 <= sum l) by (apply IH; intros; apply H; now right).
    lra.
Qed.

(** ** Grouping *)

Section GroupByFacts.

Context {K V : Type}.
Variable K_dec : forall a b : K, {a = b} + {a <> b}.
Variable K_leb : K -> K -> bool.
Variable key : row -> K.

Lemma insert_key_perm k ks : Permutation (k :: ks) (insert_key K_leb k ks).
Proof.
  induction ks as [|k' ks IH]; simpl.
  - apply Permutation_refl.
  - destruct (K_leb k k').
    + apply Permutation_refl.
    + eapply perm_trans; [apply perm_swap | now apply perm_skip].
Qed.

Lemma sort_keys_perm ks : Permutation ks (sort_keys K_leb ks).
Proof.
  induction ks as [|k ks IH]; simpl.
  - apply perm_nil.
  - eapply perm_trans; [apply perm_skip, IH | apply insert_key_perm].
Qed.

Lemma group_keys_NoDup rows : NoDup (group_keys K_dec K_leb key rows).
Proof.
  unfold group_keys.
  eapply Permutation_NoDup; [apply sort_keys_perm | apply NoDup_nodup].
Qed.

Lemma group_keys_In rows k :
  In k (group_keys K_dec K_leb key rows) <-> In k (map key rows).
Proof.
  unfold group_keys. split; intros H.
  - apply (nodup_In K_dec).
    eapply Permutation_in; [apply Permutation_sym, sort_keys_perm | exact H].
  - eapply Permutation_in; [apply sort_keys_perm | now apply nodup_In].
Qed.

Lemma group_keys_length rows :
  List.length (group_keys K_dec K_leb key rows)
  = List.length (nodup K_dec (map key rows)).
Proof.
  unfold group_keys. symmetry. apply Permutation_length, sort_keys_perm.
Qed.

Lemma groupby_length (agg : list row -> V) rows :
  List.length (groupby K_dec K_leb key agg rows)
  = List.length (nodup K_dec (map key rows)).
Proof. unfold groupby. now rewrite length_map, group_keys_length. Qed.

(** *** Group sums add up to the column sum *)

Variable v : row -> Q.

Lemma group_sum_other r rows ks :
  ~ In (key r) ks ->
  sum (map (group_sum K_dec key v (r :: rows)) ks) == sum (map (group_sum K_dec key v rows) ks).
Proof.
  induction ks as [|k ks IH]; simpl; intros Hn; [reflexivity|].
  rewrite IH by (intros H; apply Hn; now right).
  unfold group_sum at 1 3. simpl. unfold in_group at 1.
  destruct (K_dec (key r) k) as [E | _]; [| reflexivity].
  exfalso. apply Hn. now left.
Qed.

Lemma group_sum_cons r rows ks :
  NoDup ks -> In (key r) ks ->
  sum (map (group_sum K_dec key v (r :: rows)) ks) == v r + sum (map (group_sum K_dec key v rows) ks).
Proof.
  induction 1 as [|k ks Hk Hnd IH]; simpl; intros Hin; [contradiction|].
  unfold group_sum at 1 3. simpl. unfold in_group at 1.
  destruct (K_dec (key r) k) as [E | N].
  - subst k. rewrite group_sum_other by exact Hk. simpl. ring.
  - rewrite IH by (destruct Hin; [congruence | assumption]). ring.
Qed.

Lemma group_sums_total rows ks :
  NoDup ks -> (forall r, In r rows -> In (key r) ks) ->
  sum (map (group_sum K_dec key v rows) ks) == sum (map v rows).
Proof.
  intros Hnd. induction rows as [|r rows IH]; intros Hin.
  - unfold group_sum. simpl. apply sum_zeros.
  - rewrite group_sum_cons; [| assumption | apply Hin; now left].
    simpl. rewrite IH; [reflexivity|].
    intros r' Hr'. apply Hin. now right.
Qed.

Lemma groupby_sum_total rows :
  sum (map snd (groupby K_dec K_leb key (fun g => sum (map v g)) rows))
  == sum (map v rows).
Proof.
  unfold groupby. rewrite map_map. simpl.
  apply group_sums_total; [apply group_keys_NoDup|].
  intros r Hr. apply group_keys_In. now apply in_map.
Qed.

(** *** Sorting by value, descending *)

Variable by_ : V -> Q.

Lemma insert_desc_perm (x : K * V) l : Permutation (x :: l) (insert_desc by_ x l).
Proof.
  induction l as [|y l IH]; simpl.
  - apply Permutation_refl.
  - destruct (Qle_bool (by_ (snd y)) (by_ (snd x))).
    + apply Permutation_refl.
    + eapply perm_trans; [apply perm_swap | now apply perm_skip].
Qed.

Lemma sort_values_desc_perm (l : list (K * V)) : Permutation l (sort_values_desc by_ l).
Proof.
  induction l as [|x l IH]; simpl.
  - apply perm_nil.
  - eapply perm_trans; [apply perm_skip, IH | apply insert_desc_perm].
Qed.

Lemma insert_desc_sorted x l :
  StronglySorted (@desc K V by_) l -> StronglySorted (@desc K V by_) (insert_desc by_ x l).
Proof.
  induction 1 as [|y l Hs IH Hall]; simpl.
  - repeat constructor.
  - destruct (Qle_bool (by_ (snd y)) (by_ (snd x))) eqn:E.
    + apply Qle_bool_iff in E.
      constructor; [now constructor|].
      constructor; [exact E|].
      eapply Forall_impl; [| exact Hall].
      intros z Hz. unfold desc in *. lra.
    + assert (Hlt : by_ (snd x) < by_ (snd y)).
      { apply Qnot_le_lt. intros H. apply Qle_bool_iff in H. congruence. }
      constructor; [exact IH|].
      eapply Permutation_Forall; [apply insert_desc_perm|].
      constructor; [unfold desc; lra | exact Hall].
Qed.

Lemma sort_values_desc_sorted l : StronglySorted (@desc K V by_) (sort_values_desc by_ l).
Proof.
  induction l as [|x l IH]; simpl; [constructor | now apply insert_desc_sorted].
Qed.

Lemma head_sorted n l : StronglySorted (@desc K V by_) l -> StronglySorted (@desc K V by_) (head n l).
Proof.
  unfold head. intros H. revert n.
  induction H as [|y l Hs IH Hall]; intros [|n]; simpl; try constructor.
  - apply IH.
  - rewrite Forall_forall in *. intros z Hz. apply Hall.
    rewrite <- (firstn_skipn n l). apply in_or_app. now left.
Qed.

End GroupByFacts.

(** ** Key metrics *)

Lemma dropna_In l i : In i (dropna l) <-> In (Some i) l.
Proof.
  unfold dropna. rewrite in_flat_map. split.
  - intros [[x|] [Hx Hi]]; [| contradiction].
    destruct Hi as [<- | []]. exact Hx.
  - intros H. exists (Some i). split; [exact H | now left].
Qed.

Lemma nunique_distinct l :
  exists ids, NoDup ids /\ (forall i, In i ids <-> In (Some i) l)
              /\ nunique l = Z.of_nat (List.length ids).
Proof.
  exists (nodup string_dec (dropna l)). split; [apply NoDup_nodup | split].
  - intros i. rewrite nodup_In. apply dropna_In.
  - reflexivity.
Qed.

Lemma mean_cons z l :
  exists q, mean (z :: l) = Fin q
            /\ q * inject_Z (Z.of_nat (List.length (z :: l)))
               == inject_Z (fold_right Z.add 0%Z (z :: l)).
Proof.
  eexists. split; [reflexivity|].
  field. intros H.
  assert (E : Qnum (inject_Z (Z.of_nat (List.length (z :: l)))) = 0%Z).
  { unfold Qeq in H. simpl in H. simpl. lia. }
  simpl in E. lia.
Qed.

(** C4. The four metrics of a set of rows: the sum of the sales, the sum
    of the profits, the number of distinct order ids, and the mean of the
    delivery times (a number as soon as there is one row).  On the two
    orders of the scenario: 300, 10 and 2. *)
Theorem summarize_metrics :
  (forall rows,
      total_sales (summarize rows) == fold_right (fun r acc => sales r + acc) 0 rows
      /\ total_profit (summarize rows) == fold_right (fun r acc => profit r + acc) 0 rows
      /\ (exists ids,
             NoDup ids
             /\ (forall i, In i ids <-> exists r, In r rows /\ order_id r = Some i)
             /\ total_orders (summarize rows) = Z.of_nat (List.length ids)))
  /\ (forall r rows,
         exists q,
           avg_delivery (summarize (r :: rows)) = Fin q
           /\ q * inject_Z (Z.of_nat (List.length (r :: rows)))
              == inject_Z (fold_right (fun r acc => (delivery_time r + acc)%Z) 0%Z (r :: rows)))
  /\ (exists kept,
         apply (load_data Scenario.csv) Scenario.crit = Ok kept
         /\ List.length kept = 2%nat
         /\ total_sales (summarize kept) == 300
         /\ total_profit (summarize kept) == 10
         /\ total_orders (summarize kept) = 2%Z).
Proof.
  split; [| split].
  - intros rows. unfold summarize. simpl. repeat split.
    + induction rows as [|r rows IH]; simpl; [reflexivity | now rewrite IH].
    + induction rows as [|r rows IH]; simpl; [reflexivity | now rewrite IH].
    + destruct (nunique_distinct (map order_id rows)) as [ids [Hnd [Hin Hlen]]].
      exists ids. split; [exact Hnd | split; [| exact Hlen]].
      intros i. rewrite Hin, in_map_iff. split.
      * intros [r [E Hr]]. now exists r.
      * intros [r [Hr E]]. now exists r.
  - intros r rows. unfold summarize. simpl avg_delivery.
    destruct (mean_cons (delivery_time r) (map delivery_time rows)) as [q [Hq Hm]].
    exists q. split; [exact Hq|].
    simpl List.length in *. rewrite length_map in Hm. rewrite Hm.
    apply inject_Z_injective.
    simpl. f_equal. clear Hq Hm. induction rows as [|r' rows IH]; simpl; [reflexivity | now rewrite IH].
  - eexists. split; [reflexivity|]. vm_compute. repeat split.
Qed.

(** ** Grouped summaries *)

Section GroupsPartition.

Context {K : Type}.
Variable K_dec : forall a b : K, {a = b} + {a <> b}.
Variable key : row -> K.

Lemma filter_group_cons k r rows :
  filter (in_group K_dec key k) (r :: rows)
  = if K_dec (key r) k
    then r :: filter (in_group K_dec key k) rows
    else filter (in_group K_dec key k) rows.
Proof. simpl. unfold in_group at 1. now destruct (K_dec (key r) k). Qed.

Lemma groups_other r rows ks :
  ~ In (key r) ks ->
  flat_map (fun k => filter (in_group K_dec key k) (r :: rows)) ks
  = flat_map (fun k => filter (in_group K_dec key k) rows) ks.
Proof.
  induction ks as [|k ks IH]; intros Hn; [reflexivity|].
  cbn [flat_map]. rewrite IH by (intros H; apply Hn; now right).
  rewrite filter_group_cons.
  destruct (K_dec (key r) k) as [E | _]; [| reflexivity].
  exfalso. apply Hn. now left.
Qed.

Lemma groups_cons r rows ks :
  NoDup ks -> In (key r) ks ->
  Permutation (flat_map (fun k => filter (in_group K_dec key k) (r :: rows)) ks)
              (r :: flat_map (fun k => filter (in_group K_dec key k) rows) ks).
Proof.
  induction 1 as [|k ks Hk Hnd IH]; intros Hin; [contradiction|].
  cbn [flat_map]. rewrite filter_group_cons.
  destruct (K_dec (key r) k) as [E | N].
  - subst k. rewrite groups_other by exact Hk. apply Permutation_refl.
  - eapply perm_trans.
    + apply Permutation_app_head. apply IH.
      destruct Hin; [congruence | assumption].
    + apply Permutation_sym, Permutation_middle.
Qed.

(** Every row is in the group of its key and in no other. *)
Lemma groups_partition rows ks :
  NoDup ks -> (forall r, In r rows -> In (key r) ks) ->
  Permutation (flat_map (fun k => filter (in_group K_dec key k) rows) ks) rows.
Proof.
  intros Hnd. induction rows as [|r rows IH]; intros Hin.
  - clear. induction ks as [|k ks IHk]; [apply perm_nil | exact IHk].
  - eapply perm_trans; [apply groups_cons; [exact Hnd | apply Hin; now left]|].
    apply perm_skip. apply IH. intros r' Hr'. apply Hin. now right.
Qed.

End GroupsPartition.

(** C6, as the script computes it.  For each of the grouping columns,
    [group_by] puts every record in exactly one group, so the exact sums
    of the groups add up to the exact sum of all sales.  The values the
    script computes are rounded, each in its own order of addition, and
    the sum of the computed group sums can differ from the computed
    total. *)
Theorem group_sums_reconcile_exactly (rows : list row) (d : dimension) :
  Permutation
    (flat_map (fun k => filter (in_group string_dec (column d) k) rows)
              (map fst (group_by rows d Sales)))
    rows
  /\ sum (map snd (group_by rows d Sales)) == total_sales (summarize rows).
Proof.
  assert (Hp : Permutation
                 (groupby string_dec String.leb (column d)
                    (fun g => sum (map (value Sales) g)) rows)
                 (group_by rows d Sales))
    by (unfold group_by; apply sort_values_desc_perm).
  split.
  - eapply perm_trans.
    + apply Permutation_flat_map. apply Permutation_sym.
      apply (Permutation_map fst). exact Hp.
    + unfold groupby. rewrite map_map. simpl. rewrite map_id.
      apply groups_partition; [apply group_keys_NoDup|].
      intros r Hr. apply group_keys_In. now apply in_map.
  - unfold summarize. simpl total_sales.
    rewrite <- (@groupby_sum_total string string_dec String.leb (column d) sales rows).
    apply sum_perm, Permutation_map, Permutation_sym. exact Hp.
Qed.

(** C6 fails as stated: in binary64, for three orders of 0.1, 0.2 and 0.3
    in two regions, the group sums are 0.5 and 0.1 and add up to less than
    the total, in whichever order they are added. *)
Lemma group_sums_differ_in_binary64 :
  map fst (Binary64.group_by three_orders Region Sales) = ["West"%string; "East"%string]
  /\ PrimFloat.ltb
       (Binary64.series_sum (map snd (Binary64.group_by three_orders Region Sales)))
       (Binary64.total_sales three_orders) = true
  /\ PrimFloat.ltb
       (Binary64.series_sum (rev (map snd (Binary64.group_by three_orders Region Sales))))
       (Binary64.total_sales three_orders) = true
  /\ PrimFloat.eqb
       (Binary64.series_sum (map snd (Binary64.group_by three_orders Region Sales)))
       (Binary64.total_sales three_orders) = false.
Proof. vm_compute. repeat split. Qed.

(** C8. The first [n] entries of a grouped summary: there are
    [min n (number of groups)] of them, their values never increase along
    the sequence, and with at most [n] groups they are the whole summary. *)
Theorem top_length_sorted (rows : list row) (d : dimension) (m : metric) (n : nat) :
  List.length (top (group_by rows d m) n) = Nat.min n (distinct_groups rows d)
  /\ StronglySorted (fun a b => snd b <= snd a) (top (group_by rows d m) n)
  /\ ((distinct_groups rows d <= n)%nat -> top (group_by rows d m) n = group_by rows d m).
Proof.
  assert (Hlen : List.length (group_by rows d m) = distinct_groups rows d).
  { unfold group_by, distinct_groups.
    erewrite <- Permutation_length by apply sort_values_desc_perm.
    apply groupby_length. }
  unfold top, head. repeat split.
  - now rewrite length_firstn, Hlen.
  - change (StronglySorted (desc id_Q) (head n (group_by rows d m))).
    apply head_sorted, sort_values_desc_sorted.
  - intros Hle. apply firstn_all2. now rewrite Hlen.
Qed.

(** ** Empty selections and zero baselines *)

Lemma int_percent_delta_nonzero current overall :
  overall <> 0%Z ->
  int_percent_delta current overall
  = Ok (Fin (inject_Z (current - overall) / inject_Z overall * 100)).
Proof.
  intros H. unfold int_percent_delta, int_truediv.
  destruct (Z.eqb_spec overall 0); [contradiction | reflexivity].
Qed.

Lemma percent_delta_zero_baseline current overall :
  overall == 0 -> percent_delta current overall = signed_inf (current ?= 0).
Proof.
  intros H. unfold percent_delta, true_divide.
  apply Qeq_bool_iff in H as Hb. rewrite Hb.
  assert (E : (current - overall ?= 0) = (current ?= 0)).
  { apply Qcompare_comp; [rewrite H; ring | reflexivity]. }
  rewrite E. now destruct (current ?= 0).
Qed.

Lemma percent_delta_finite current overall :
  ~ overall == 0 ->
  percent_delta current overall = Fin ((current - overall) / overall * 100).
Proof.
  intros H. unfold percent_delta, true_divide.
  destruct (Qeq_bool overall 0) eqn:E; [| reflexivity].
  apply Qeq_bool_iff in E. contradiction.
Qed.

(** The script has no handler: an exception of the delta computation ends
    the run. *)
Lemma compare_failure_aborts df c t e :
  validation c = Ok tt ->
  compare (summarize df) (summarize (filtered_df df c)) = Raise e ->
  dashboard df c t = Raise e.
Proof. intros Hv Hc. unfold dashboard. rewrite Hv. simpl. now rewrite Hc. Qed.

(** C9. When no row passes the filter, the aggregate operations on the
    filtered rows return defined results: the metrics are 0, 0, 0 and NaN,
    every grouped summary and the trend series are empty.  The run of the
    script on them (on a data frame with an order id, with a segment and a
    region selected) ends normally with these values when the segment
    chart is off; when it is on, drawing that chart from the empty summary
    raises [IndexError]. *)
Theorem empty_result_defined df c t :
  filtered_df df c = [] ->
  summarize (filtered_df df c) = Kpi 0 0 0 NaN
  /\ (forall d m n, group_by (filtered_df df c) d m = []
                    /\ top (group_by (filtered_df df c) d m) n = [])
  /\ segment_summary (filtered_df df c) = []
  /\ segment_category (filtered_df df c) = []
  /\ (forall g, resample (filtered_df df c) g = [])
  /\ (complete c -> total_orders (summarize df) <> 0%Z ->
      show_segment_chart t = false ->
      exists v, dashboard df c t = Ok v
                /\ raw_data v = []
                /\ metrics v = Kpi 0 0 0 NaN
                /\ time_data v = []
                /\ segment_category_chart v = [])
  /\ (complete c -> total_orders (summarize df) <> 0%Z ->
      show_segment_chart t = true ->
      dashboard df c t = Raise IndexError).
Proof.
  intros E. rewrite E. repeat split.
  - intros. unfold top, head. now destruct n.
  - intros Hc Hdf Hoff. unfold dashboard.
    rewrite (validation_complete Hc). simpl. rewrite E.
    unfold compare.
    rewrite (int_percent_delta_nonzero _ Hdf), Hoff.
    simpl. eexists. split; [reflexivity|]. simpl. repeat split.
  - intros Hc Hdf Hon. unfold dashboard.
    rewrite (validation_complete Hc). simpl. rewrite E.
    unfold compare.
    rewrite (int_percent_delta_nonzero _ Hdf), Hon.
    reflexivity.
Qed.

Lemma empty_result_defined_witness :
  let df := load_data Scenario.csv in
  complete next_year
  /\ total_orders (summarize df) <> 0%Z
  /\ filtered_df df next_year = []
  /\ summarize (filtered_df df next_year) = Kpi 0 0 0 NaN
  /\ (forall g, resample (filtered_df df next_year) g = [])
  /\ (exists v, dashboard df next_year no_charts = Ok v
                /\ raw_data v = []
                /\ metrics v = Kpi 0 0 0 NaN
                /\ time_data v = []
                /\ segment_category_chart v = [])
  /\ dashboard df next_year Scenario.all_charts = Raise IndexError.
Proof.
  assert (Hc : complete next_year) by (split; discriminate).
  assert (Hn : total_orders (summarize (load_data Scenario.csv)) <> 0%Z)
    by (vm_compute; discriminate).
  destruct (@empty_result_defined (load_data Scenario.csv) next_year
              no_charts eq_refl) as [Hs [_ [_ [_ [Hr [Hrun _]]]]]].
  destruct (@empty_result_defined (load_data Scenario.csv) next_year
              Scenario.all_charts eq_refl) as [_ [_ [_ [_ [_ [_ Hraise]]]]]].
  split; [exact Hc | split; [exact Hn | split; [reflexivity |]]].
  split; [exact Hs | split; [exact Hr | split]].
  - exact (Hrun Hc Hn eq_refl).
  - exact (Hraise Hc Hn eq_refl).
Defined.

(** C1, as the script computes it.  A zero baseline of the sales or of the
    profit gives inf, -inf or NaN (by the sign of the filtered value) and
    raises nothing; baseline 0 and filtered 50 give inf.  A zero baseline of
    the order count raises [ZeroDivisionError], and then no delta is
    returned. *)
Theorem zero_baseline_deltas :
  (forall overall current,
      total_orders overall = 0%Z -> compare overall current = Raise ZeroDivisionError)
  /\ (forall overall current,
         total_orders overall <> 0%Z ->
         exists d,
           compare overall current = Ok d
           /\ (total_sales overall == 0 ->
               sales_delta d = signed_inf (total_sales current ?= 0))
           /\ (total_profit overall == 0 ->
               profit_delta d = signed_inf (total_profit current ?= 0)))
  /\ percent_delta 50 0 = PosInf.
Proof.
  split; [| split].
  - intros overall current H. unfold compare, int_percent_delta, int_truediv.
    now rewrite H.
  - intros overall current H. unfold compare.
    rewrite (int_percent_delta_nonzero _ H). simpl.
    eexists. split; [reflexivity|]. simpl.
    split; apply percent_delta_zero_baseline.
  - reflexivity.
Qed.

(** C1 fails as stated: on a data frame without order ids the baseline of
    the order count is 0, the delta computation raises, and the run ends in
    the exception: nothing in the script handles it. *)
Lemma zero_orders_baseline_raises :
  total_orders (summarize unnumbered) = 0%Z
  /\ validation Scenario.crit = Ok tt
  /\ compare (summarize unnumbered) (summarize (filtered_df unnumbered Scenario.crit))
     = Raise ZeroDivisionError
  /\ dashboard unnumbered Scenario.crit Scenario.all_charts = Raise ZeroDivisionError.
Proof. repeat split. Qed.

(** ** Filtered against overall sales *)

Lemma compare_sales_delta overall current d :
  compare overall current = Ok d ->
  sales_delta d = percent_delta (total_sales current) (total_sales overall).
Proof.
  unfold compare.
  destruct (int_percent_delta (total_orders current) (total_orders overall));
    simpl; [| discriminate].
  intros H. injection H as <-. reflexivity.
Qed.

Lemma filtered_sales_le df c :
  (forall r, In r df -> 0 <= sales r) ->
  sum (map sales (filtered_df df c)) <= sum (map sales df).
Proof.
  unfold filtered_df. induction df as [|r df IH]; simpl; intros H.
  - apply Qle_refl.
  - assert (0 <= sales r) by (apply H; now left).
    assert (sum (map sales (filter (mask c) df)) <= sum (map sales df))
      by (apply IH; intros; apply H; now right).
    destruct (mask c r); simpl; lra.
Qed.

(** C10 fails as stated: when all sales are 0 the delta is NaN, and
    [NaN <= 0] is false. *)
Lemma zero_sales_delta_is_nan :
  Forall (fun r => 0 <= sales r) free_order
  /\ sales_delta_of free_order free_order_criteria = NaN
  /\ less_equal (sales_delta_of free_order free_order_criteria) (Fin 0) = false
  /\ exists d, dashboard free_order free_order_criteria Scenario.all_charts = Ok d
               /\ sales_delta (metric_deltas d) = NaN.
Proof.
  split; [| split; [| split]].
  - repeat constructor. discriminate.
  - reflexivity.
  - reflexivity.
  - eexists. split; reflexivity.
Qed.

(** C10 fails as stated also on ordinary amounts: in binary64, of eight
    orders without negative sales the three of one region have a computed
    total (0.1 + 0.2 + 0.3 added one by one) above the computed total of
    all eight (added in eight lanes), and the computed delta is positive. *)
Lemma filtered_sales_exceed_in_binary64 :
  Forall (fun r => 0 <= sales r) eight_orders
  /\ map sales (filtered_df eight_orders east_only) = [1 # 10; 2 # 10; 3 # 10]
  /\ PrimFloat.ltb (Binary64.total_sales eight_orders)
                   (Binary64.total_sales (filtered_df eight_orders east_only)) = true
  /\ PrimFloat.ltb PrimFloat.zero (Binary64.sales_delta_of eight_orders east_only) = true.
Proof.
  split; [| vm_compute; repeat split].
  repeat constructor; discriminate.
Qed.

(** C10, as the script computes it.  When no sale is negative, the
    filtered rows are rows of the data frame, in their order, so the exact
    sum of their sales does not exceed the exact sum of all sales, and the
    delta of the exact sums is never positive: it is at most 0 when the
    overall sum is not 0, and NaN when it is 0.  The totals the script
    computes are rounded, each in its own order of addition, and the
    computed delta can be positive. *)
Theorem filtered_sales_delta_not_positive df c :
  (forall r, In r df -> 0 <= sales r) ->
  incl (filtered_df df c) df
  /\ Kept c df (filtered_df df c)
  /\ total_sales (summarize (filtered_df df c)) <= total_sales (summarize df)
  /\ greater (sales_delta_of df c) (Fin 0) = false
  /\ (~ total_sales (summarize df) == 0 ->
      less_equal (sales_delta_of df c) (Fin 0) = true)
  /\ (total_sales (summarize df) == 0 -> sales_delta_of df c = NaN)
  /\ (forall d, compare (summarize df) (summarize (filtered_df df c)) = Ok d ->
                sales_delta d = sales_delta_of df c).
Proof.
  intros Hpos.
  pose proof (@filtered_sales_le df c Hpos) as Hle.
  assert (Hnn : 0 <= sum (map sales (filtered_df df c))).
  { apply sum_nonneg. intros q Hq. apply in_map_iff in Hq as [r [<- Hr]].
    apply Hpos. now apply filtered_df_In in Hr. }
  assert (Hfin : ~ sum (map sales df) == 0 ->
                 less_equal (sales_delta_of df c) (Fin 0) = true).
  { intros Hnz. unfold sales_delta_of. simpl total_sales.
    rewrite (percent_delta_finite _ Hnz). simpl. apply Qle_bool_iff.
    assert (Hov : 0 < sum (map sales df)) by lra.
    pose proof (Qinv_lt_0_compat _ Hov) as Hinv.
    unfold Qdiv. nra. }
  assert (Hzero : sum (map sales df) == 0 -> sales_delta_of df c = NaN).
  { intros Hz. unfold sales_delta_of. simpl total_sales.
    rewrite (percent_delta_zero_baseline _ Hz).
    assert (E : sum (map sales (filtered_df df c)) == 0) by lra.
    apply Qeq_alt in E. now rewrite E. }
  split; [| split; [| split; [| split; [| split; [| split]]]]].
  - intros r Hr. now apply filtered_df_In in Hr.
  - apply filtered_df_Kept.
  - exact Hle.
  - destruct (Qeq_dec (sum (map sales df)) 0) as [Hz | Hnz].
    + simpl total_sales in Hzero. now rewrite (Hzero Hz).
    + specialize (Hfin Hnz).
      destruct (sales_delta_of df c); simpl in *; try reflexivity; try discriminate.
      now rewrite Hfin.
  - exact Hfin.
  - exact Hzero.
  - intros d. apply compare_sales_delta.
Qed.

Lemma scenario_sales_nonneg r : In r (load_data Scenario.csv) -> 0 <= sales r.
Proof. intros [<- | [<- | []]]; vm_compute; discriminate. Qed.

Lemma filtered_sales_delta_not_positive_witness :
  let df := load_data Scenario.csv in
  let c := january in
  (forall r, In r df -> 0 <= sales r)
  /\ incl (filtered_df df c) df
  /\ Kept c df (filtered_df df c)
  /\ total_sales (summarize (filtered_df df c)) <= total_sales (summarize df)
  /\ greater (sales_delta_of df c) (Fin 0) = false
  /\ (~ total_sales (summarize df) == 0 ->
      less_equal (sales_delta_of df c) (Fin 0) = true)
  /\ (total_sales (summarize df) == 0 -> sales_delta_of df c = NaN)
  /\ (forall d, compare (summarize df) (summarize (filtered_df df c)) = Ok d ->
                sales_delta d = sales_delta_of df c).
Proof.
  split; [exact scenario_sales_nonneg|].
  exact (@filtered_sales_delta_not_positive (load_data Scenario.csv) january
           scenario_sales_nonneg).
Defined.

(** ** Trend series *)

Section Resample.

Local Open Scope Z_scope.

Lemma month_start_step p : Calendar.month_start p < Calendar.month_start (p + 1).
Proof.
  unfold Calendar.month_start.
  assert (H : exists y m,
             0 <= m < 12 /\ p / 12 = y /\ p mod 12 = m
             /\ ((m < 11 /\ (p + 1) / 12 = y /\ (p + 1) mod 12 = m + 1)
                 \/ (m = 11 /\ (p + 1) / 12 = y + 1 /\ (p + 1) mod 12 = 0))).
  { exists (p / 12), (p mod 12). Z.div_mod_to_equations. lia. }
  destruct H as [y [m [Hm [-> [-> Hcase]]]]].
  unfold Calendar.days_from_civil.
  destruct Hcase as [[Hlt [-> ->]] | [-> [-> ->]]];
    repeat (match goal with
            | |- context [?a <=? ?b] => destruct (Z.leb_spec a b)
            end);
    try lia; Z.div_mod_to_equations; lia.
Qed.

Lemma month_start_lt p q : p < q -> Calendar.month_start p < Calendar.month_start q.
Proof.
  intros H.
  assert (Hn : forall n : nat,
             Calendar.month_start p < Calendar.month_start (p + 1 + Z.of_nat n)).
  { induction n as [|n IH].
    - rewrite Z.add_0_r. apply month_start_step.
    - eapply Z.lt_trans; [exact IH|].
      replace (p + 1 + Z.of_nat (S n)) with (p + 1 + Z.of_nat n + 1) by lia.
      apply month_start_step. }
  specialize (Hn (Z.to_nat (q - p - 1))).
  now replace (p + 1 + Z.of_nat (Z.to_nat (q - p - 1))) with q in Hn by lia.
Qed.

(** Later bins carry later labels. *)
Lemma label_lt g p q : p < q -> label g p < label g q.
Proof.
  intros H. destruct g; simpl; [| exact H].
  unfold Calendar.month_end.
  assert (Calendar.month_start (p + 1) < Calendar.month_start (q + 1))
    by (apply month_start_lt; lia).
  lia.
Qed.

Lemma bins_between_In lo hi p : In p (bins_between lo hi) <-> lo <= p <= hi.
Proof.
  unfold bins_between. rewrite in_map_iff. split.
  - intros [i [<- Hi]]. apply in_seq in Hi. lia.
  - intros H. exists (Z.to_nat (p - lo)). split; [lia|].
    apply in_seq. lia.
Qed.

Lemma map_seq_sorted {A : Type} (R : A -> A -> Prop) (f : nat -> A) :
  (forall i j, (i < j)%nat -> R (f i) (f j)) ->
  forall n s, StronglySorted R (map f (seq s n)).
Proof.
  intros Hmono. induction n as [|n IH]; intros s; simpl; constructor.
  - apply IH.
  - apply Forall_forall. intros x Hx.
    apply in_map_iff in Hx as [j [<- Hj]]. apply in_seq in Hj.
    apply Hmono. lia.
Qed.

Lemma fold_min_spec b bs :
  In (fold_right Z.min b bs) (b :: bs)
  /\ forall x, In x (b :: bs) -> fold_right Z.min b bs <= x.
Proof.
  induction bs as [|a bs [Hin Hle]]; simpl.
  - split; [now left | intros x [<- | []]; lia].
  - split.
    + destruct (Z.min_spec a (fold_right Z.min b bs)) as [[_ ->] | [_ ->]].
      * right. now left.
      * simpl in Hin. destruct Hin as [Hin | Hin]; [now left | right; now right].
    + intros x [<- | [<- | Hx]].
      * specialize (Hle b (or_introl eq_refl)). lia.
      * lia.
      * specialize (Hle x (or_intror Hx)). lia.
Qed.

Lemma fold_max_spec b bs :
  In (fold_right Z.max b bs) (b :: bs)
  /\ forall x, In x (b :: bs) -> x <= fold_right Z.max b bs.
Proof.
  induction bs as [|a bs [Hin Hle]]; simpl.
  - split; [now left | intros x [<- | []]; lia].
  - split.
    + destruct (Z.max_spec a (fold_right Z.max b bs)) as [[_ ->] | [_ ->]].
      * simpl in Hin. destruct Hin as [Hin | Hin]; [now left | right; now right].
      * right. now left.
    + intros x [<- | [<- | Hx]].
      * specialize (Hle b (or_introl eq_refl)). lia.
      * lia.
      * specialize (Hle x (or_intror Hx)). lia.
Qed.

(** The entries of the series: one for every bin between the bins of two
    rows. *)
Lemma resample_In rows g pt :
  In pt (resample rows g)
  <-> exists p r1 r2,
      In r1 rows /\ In r2 rows
      /\ bin g (order_date r1) <= p <= bin g (order_date r2)
      /\ pt = point rows g p.
Proof.
  unfold resample.
  destruct (map (fun r => bin g (order_date r)) rows) as [|b bs] eqn:E.
  - destruct rows; [| discriminate]. simpl. split; [tauto|].
    intros [p [r1 [r2 [[] _]]]].
  - destruct (fold_min_spec b bs) as [Hmin_in Hmin_le].
    destruct (fold_max_spec b bs) as [Hmax_in Hmax_le].
    rewrite <- E in Hmin_in, Hmax_in, Hmin_le, Hmax_le.
    rewrite in_map_iff. split.
    + intros [p [<- Hp]]. apply bins_between_In in Hp.
      apply in_map_iff in Hmin_in as [r1 [E1 Hr1]].
      apply in_map_iff in Hmax_in as [r2 [E2 Hr2]].
      exists p, r1, r2. rewrite E1, E2. auto.
    + intros [p [r1 [r2 [Hr1 [Hr2 [Hp ->]]]]]].
      exists p. split; [reflexivity|]. apply bins_between_In.
      pose proof (Hmin_le _ (in_map (fun r => bin g (order_date r)) _ _ Hr1)).
      pose proof (Hmax_le _ (in_map (fun r => bin g (order_date r)) _ _ Hr2)).
      simpl in *. lia.
Qed.

Lemma resample_sorted rows g :
  StronglySorted (fun a b => point_date a < point_date b) (resample rows g).
Proof.
  unfold resample.
  destruct (map (fun r => bin g (order_date r)) rows) as [|b bs]; [constructor|].
  unfold bins_between. rewrite map_map.
  apply map_seq_sorted. intros i j Hij. simpl. apply label_lt. lia.
Qed.

Lemma point_members rows g p :
  (exists r, In r rows /\ bin g (order_date r) = p)
  \/ (point_sales (point rows g p) = 0%Q /\ point_profit (point rows g p) = 0%Q).
Proof.
  unfold point. simpl.
  destruct (filter (in_bin g p) rows) as [|r l] eqn:E.
  - right. split; reflexivity.
  - left. exists r.
    assert (Hr : In r (filter (in_bin g p) rows)) by (rewrite E; now left).
    apply filter_In in Hr as [Hr Hb]. split; [exact Hr|].
    unfold in_bin in Hb. now apply Z.eqb_eq.
Qed.

End Resample.

(** C2 fails as stated: the daily series of two orders two days apart has
    an entry for the day between them, with sums 0, and no order of that
    day. *)
Lemma resample_emits_empty_bucket :
  resample gap_rows Daily
  = [ TrendPoint (Scenario.d 2024 1 5) 100 20;
      TrendPoint (Scenario.d 2024 1 6) 0 0;
      TrendPoint (Scenario.d 2024 1 7) 200 (-10) ]
  /\ Forall (fun r => order_date r <> Scenario.d 2024 1 6) gap_rows.
Proof.
  split.
  - vm_compute. reflexivity.
  - repeat constructor; vm_compute; discriminate.
Qed.

(** C2, as the script computes it.  The series is chronologically
    ascending and has one entry for every period from the earliest
    occupied one to the latest, the empty ones included: an entry carries
    the sums over the rows of its period, and either has a contributing
    row or has both sums 0. *)
Theorem resample_dense_ascending (rows : list row) (g : granularity) :
  StronglySorted (fun a b => (point_date a < point_date b)%Z) (resample rows g)
  /\ (forall r1 r2 p,
         In r1 rows -> In r2 rows ->
         (bin g (order_date r1) <= p <= bin g (order_date r2))%Z ->
         In (point rows g p) (resample rows g))
  /\ (forall pt,
         In pt (resample rows g) ->
         exists p r1 r2,
           In r1 rows /\ In r2 rows
           /\ (bin g (order_date r1) <= p <= bin g (order_date r2))%Z
           /\ point_date pt = label g p
           /\ point_sales pt = sum (map sales (filter (in_bin g p) rows))
           /\ point_profit pt = sum (map profit (filter (in_bin g p) rows))
           /\ ((exists r, In r rows /\ bin g (order_date r) = p)
               \/ (point_sales pt = 0 /\ point_profit pt = 0))).
Proof.
  split; [apply resample_sorted | split].
  - intros r1 r2 p H1 H2 Hp. apply resample_In. now exists p, r1, r2.
  - intros pt Hpt. apply resample_In in Hpt as [p [r1 [r2 [H1 [H2 [Hp ->]]]]]].
    exists p, r1, r2. repeat split; try assumption; try apply Hp.
    apply point_members.
Qed.

(** * Further properties of the script *)

(** ** Sidebar defaults and the filter *)

Lemma unique_In x l : In x (unique l) <-> In x l.
Proof.
  induction l as [|a l IH]; simpl; [tauto|].
  split.
  - intros [E | H]; [now left|].
    apply in_remove in H as [H _]. right. now apply IH.
  - intros [E | H]; [now left|].
    destruct (string_dec a x) as [E | N]; [now left|].
    right. apply in_in_remove; [congruence | now apply IH].
Qed.

Lemma filter_all {A : Type} (f : A -> bool) (l : list A) :
  (forall x, In x l -> f x = true) -> filter f l = l.
Proof.
  induction l as [|a l IH]; simpl; intros H; [reflexivity|].
  rewrite (H a (or_introl eq_refl)). f_equal. apply IH. intros x Hx. apply H. now right.
Qed.

Lemma min_date_le df lo r :
  min_date df = Some lo -> In r df -> (lo <= order_date r)%Z.
Proof.
  unfold min_date. intros H Hr.
  destruct (map order_date df) as [|d ds] eqn:E; [discriminate|].
  injection H as <-.
  apply (proj2 (fold_min_spec d ds)). rewrite <- E. now apply in_map.
Qed.

Lemma max_date_ge df hi r :
  max_date df = Some hi -> In r df -> (order_date r <= hi)%Z.
Proof.
  unfold max_date. intros H Hr.
  destruct (map order_date df) as [|d ds] eqn:E; [discriminate|].
  injection H as <-.
  apply (proj2 (fold_max_spec d ds)). rewrite <- E. now apply in_map.
Qed.

Lemma default_dates_filter_selection df lo hi segs regs :
  min_date df = Some lo ->
  max_date df = Some hi ->
  filtered_df df (Criteria lo hi segs regs) = filter (selection_mask segs regs) df.
Proof.
  intros Hlo Hhi. unfold filtered_df. apply filter_ext_in. intros r Hr.
  unfold mask, selection_mask. simpl.
  pose proof (@min_date_le df lo r Hlo Hr) as H1.
  pose proof (@max_date_ge df hi r Hhi Hr) as H2.
  apply Z.leb_le in H1, H2. now rewrite H1, H2.
Qed.

(** X1. With the date range left at its default, from the earliest to the
    latest order date of the data frame, the dates exclude no row: the
    filter keeps exactly the rows whose segment and region are selected. *)
Theorem default_dates_exclude_nothing df lo hi segs regs :
  min_date df = Some lo ->
  max_date df = Some hi ->
  filtered_df df (Criteria lo hi segs regs) = filter (selection_mask segs regs) df.
Proof. apply default_dates_filter_selection. Qed.

Lemma default_dates_exclude_nothing_witness :
  let df := load_data Scenario.csv in
  min_date df = Some (Scenario.d 2024 1 5)
  /\ max_date df = Some (Scenario.d 2024 2 10)
  /\ filtered_df df (Criteria (Scenario.d 2024 1 5) (Scenario.d 2024 2 10)
                              ["Corporate"%string] ["East"%string])
     = filter (selection_mask ["Corporate"%string] ["East"%string]) df.
Proof.
  split; [reflexivity | split; [reflexivity |]].
  exact (@default_dates_exclude_nothing (load_data Scenario.csv) _ _
           ["Corporate"%string] ["East"%string] eq_refl eq_refl).
Defined.

(** X2. On a data frame with at least one row, selecting every offered
    segment and region and leaving the dates at their default passes the
    validation and keeps the data frame as it is. *)
Theorem select_all_keeps_everything df :
  df <> [] ->
  exists c,
    select_all df = Some c
    /\ complete c
    /\ filtered_df df c = df
    /\ apply df c = Ok df.
Proof.
  intros Hdf. destruct df as [|r0 df0]; [congruence|].
  set (df := r0 :: df0) in *.
  destruct (min_date df) as [lo|] eqn:Hlo; [| discriminate].
  destruct (max_date df) as [hi|] eqn:Hhi; [| discriminate].
  exists (Criteria lo hi (segments df) (regions df)).
  assert (Hc : complete (Criteria lo hi (segments df) (regions df))).
  { split; simpl; discriminate. }
  assert (Hf : filtered_df df (Criteria lo hi (segments df) (regions df)) = df).
  { rewrite (@default_dates_filter_selection df lo hi _ _ Hlo Hhi).
    apply filter_all. intros r Hr. unfold selection_mask.
    apply andb_true_iff. split; apply isin_In; apply unique_In; now apply in_map. }
  split; [unfold select_all; now rewrite Hlo, Hhi | split; [exact Hc | split; [exact Hf|]]].
  unfold apply. rewrite (validation_complete Hc). unfold bind. now rewrite Hf.
Qed.

Lemma select_all_keeps_everything_witness :
  let df := load_data Scenario.csv in
  df <> []
  /\ exists c,
      select_all df = Some c
      /\ complete c
      /\ filtered_df df c = df
      /\ apply df c = Ok df.
Proof.
  assert (H : load_data Scenario.csv <> []) by discriminate.
  split; [exact H | exact (select_all_keeps_everything H)].
Defined.

Lemma mask_narrower c1 c2 r : narrower c1 c2 -> mask c1 r = true -> mask c2 r = true.
Proof.
  intros [Hs [He [Hseg Hreg]]] H.
  apply mask_in_criteria in H as [[H1 H2] [H3 H4]].
  apply mask_in_criteria. repeat split.
  - lia.
  - lia.
  - now apply Hseg.
  - now apply Hreg.
Qed.

(** X3. Narrowing the selection (a date range inside the previous one,
    segments and regions among the previous ones) gives the rows that the
    narrower criteria keep of the previous result: all of them were in the
    previous result, and filtering it gives the same rows as filtering the
    data frame. *)
Theorem narrower_selection_refilters df c1 c2 :
  narrower c1 c2 ->
  filtered_df (filtered_df df c2) c1 = filtered_df df c1
  /\ incl (filtered_df df c1) (filtered_df df c2).
Proof.
  intros Hn. split.
  - unfold filtered_df. induction df as [|r df IH]; simpl; [reflexivity|].
    destruct (mask c2 r) eqn:E2; simpl.
    + destruct (mask c1 r); [now rewrite IH | exact IH].
    + destruct (mask c1 r) eqn:E1; [| exact IH].
      apply (mask_narrower _ Hn) in E1. congruence.
  - intros r Hr. unfold filtered_df in *. apply filter_In in Hr as [Hr Hm].
    apply filter_In. split; [exact Hr | exact (mask_narrower _ Hn Hm)].
Qed.

Lemma narrower_selection_refilters_witness :
  let df := load_data Scenario.csv in
  narrower january Scenario.crit
  /\ filtered_df (filtered_df df Scenario.crit) january = filtered_df df january
  /\ incl (filtered_df df january) (filtered_df df Scenario.crit).
Proof.
  assert (H : narrower january Scenario.crit).
  { repeat split; try (vm_compute; discriminate); apply incl_refl. }
  split; [exact H | exact (narrower_selection_refilters (load_data Scenario.csv) H)].
Defined.

(** ** Deltas *)

Lemma Qinv_neg a : a < 0 -> / a < 0.
Proof.
  intros H.
  assert (H1 : 0 < / (- a)) by (apply Qinv_lt_0_compat; lra).
  assert (E : / (- a) == - / a) by (field; lra).
  rewrite E in H1. lra.
Qed.

(** X4. With a baseline that is not 0, a percentage delta is the number
    [(current - overall) / overall * 100].  Over a positive baseline it is
    non-negative exactly when the current value is at least the baseline;
    over a negative baseline (possible for the profit) the sign is the
    other way round: it is non-negative exactly when the current value is
    at most the baseline. *)
Theorem percent_delta_sign current overall :
  ~ overall == 0 ->
  exists q,
    percent_delta current overall = Fin q
    /\ q == (current - overall) / overall * 100
    /\ (0 < overall -> (0 <= q <-> overall <= current))
    /\ (overall < 0 -> (0 <= q <-> current <= overall)).
Proof.
  intros Hnz. exists ((current - overall) / overall * 100).
  split; [now apply percent_delta_finite | split; [reflexivity|]].
  unfold Qdiv. split; intros Ho.
  - pose proof (Qinv_lt_0_compat _ Ho) as Hi. split; intros H; nra.
  - pose proof (Qinv_neg Ho) as Hi. split; intros H; nra.
Qed.

Lemma percent_delta_sign_witness :
  ~ (-100) == 0
  /\ exists q,
      percent_delta (-150) (-100) = Fin q
      /\ q == (-150 - -100) / -100 * 100
      /\ (0 < -100 -> (0 <= q <-> -100 <= -150))
      /\ (-100 < 0 -> (0 <= q <-> -150 <= -100)).
Proof.
  assert (H : ~ (-100) == 0) by (intros E; discriminate E).
  split; [exact H | exact (@percent_delta_sign (-150) (-100) H)].
Defined.

Lemma nunique_filtered_le df c :
  (0 <= nunique (map order_id (filtered_df df c)) <= nunique (map order_id df))%Z.
Proof.
  unfold nunique. split; [lia|].
  apply Nat2Z.inj_le. apply NoDup_incl_length; [apply NoDup_nodup|].
  intros i Hi. apply nodup_In. apply nodup_In in Hi.
  apply dropna_In. apply dropna_In in Hi.
  apply in_map_iff in Hi as [r [E Hr]]. apply filtered_df_In in Hr as [Hr _].
  apply in_map_iff. now exists r.
Qed.

Lemma int_percent_delta_range current overall od :
  (0 <= current <= overall)%Z ->
  int_percent_delta current overall = Ok od ->
  exists q, od = Fin q /\ -100 <= q <= 0.
Proof.
  intros [H0 H1] H. unfold int_percent_delta, int_truediv in H.
  destruct (Z.eqb_spec overall 0) as [E | N]; [discriminate|].
  simpl in H. injection H as <-. eexists. split; [reflexivity|].
  assert (Ho : 0 < inject_Z overall).
  { replace 0 with (inject_Z 0) by reflexivity. rewrite <- Zlt_Qlt. lia. }
  assert (Hc : 0 <= inject_Z current <= inject_Z overall).
  { replace 0 with (inject_Z 0) by reflexivity. rewrite <- !Zle_Qle. lia. }
  assert (E : inject_Z (current - overall) == inject_Z current - inject_Z overall).
  { unfold Z.sub, Qminus. now rewrite inject_Z_plus, inject_Z_opp. }
  rewrite E. pose proof (Qinv_lt_0_compat _ Ho) as Hi.
  assert (Hone : inject_Z overall * / inject_Z overall == 1) by (apply Qmult_inv_r; lra).
  unfold Qdiv. split; nra.
Qed.

(** X5. Whenever the deltas are computed, the delta of the order count
    lies between -100 and 0: the filtered rows never hold more distinct
    order ids than the data frame. *)
Theorem orders_delta_range df c d :
  compare (summarize df) (summarize (filtered_df df c)) = Ok d ->
  (total_orders (summarize (filtered_df df c)) <= total_orders (summarize df))%Z
  /\ exists q, orders_delta d = Fin q /\ -100 <= q <= 0.
Proof.
  intros H. pose proof (nunique_filtered_le df c) as Hle.
  split; [apply Hle|].
  unfold compare in H. simpl total_orders in H.
  destruct (int_percent_delta (nunique (map order_id (filtered_df df c)))
                              (nunique (map order_id df))) as [od|e] eqn:E;
    simpl in H; [| discriminate].
  injection H as <-. simpl. exact (int_percent_delta_range Hle E).
Qed.

Lemma orders_delta_range_witness :
  let df := load_data Scenario.csv in
  exists d,
    compare (summarize df) (summarize (filtered_df df january)) = Ok d
    /\ (total_orders (summarize (filtered_df df january)) <= total_orders (summarize df))%Z
    /\ exists q, orders_delta d = Fin q /\ -100 <= q <= 0.
Proof.
  eexists. split; [reflexivity|].
  exact (@orders_delta_range (load_data Scenario.csv) january _ eq_refl).
Defined.

(** X6. When no row passes the filter and the deltas are computed, the
    delta of the order count is -100, the delivery-time delta is NaN, and
    the sales and profit deltas are -100 over a baseline that is not 0 and
    NaN over a baseline of 0. *)
Theorem empty_selection_deltas df c d :
  filtered_df df c = [] ->
  compare (summarize df) (summarize (filtered_df df c)) = Ok d ->
  (exists q, orders_delta d = Fin q /\ q == -100)
  /\ delivery_delta d = NaN
  /\ (~ total_sales (summarize df) == 0 -> exists q, sales_delta d = Fin q /\ q == -100)
  /\ (total_sales (summarize df) == 0 -> sales_delta d = NaN)
  /\ (~ total_profit (summarize df) == 0 -> exists q, profit_delta d = Fin q /\ q == -100)
  /\ (total_profit (summarize df) == 0 -> profit_delta d = NaN).
Proof.
  intros E H. rewrite E in H. unfold compare in H. simpl in H.
  unfold int_percent_delta, int_truediv in H.
  destruct (Z.eqb_spec (nunique (map order_id df)) 0) as [E0 | N0]; [discriminate|].
  simpl in H. injection H as <-. simpl.
  assert (Ho : ~ inject_Z (nunique (map order_id df)) == 0).
  { intros Hq. apply N0. unfold Qeq in Hq. simpl in Hq. lia. }
  assert (Hfin : forall o, ~ o == 0 ->
                 exists q, percent_delta 0 o = Fin q /\ q == -100).
  { intros o Hnz. eexists. split; [now apply percent_delta_finite|]. now field. }
  assert (Hnan : forall o, o == 0 -> percent_delta 0 o = NaN).
  { intros o Hz. now rewrite (percent_delta_zero_baseline _ Hz). }
  repeat split; auto.
  eexists. split; [reflexivity|].
  assert (Em : inject_Z (0 - nunique (map order_id df))
               == - inject_Z (nunique (map order_id df))).
  { unfold Z.sub. rewrite inject_Z_plus, inject_Z_opp. simpl. ring. }
  rewrite Em. now field.
Qed.

Lemma empty_selection_deltas_witness :
  let df := load_data Scenario.csv in
  filtered_df df next_year = []
  /\ exists d,
      compare (summarize df) (summarize (filtered_df df next_year)) = Ok d
      /\ (exists q, orders_delta d = Fin q /\ q == -100)
      /\ delivery_delta d = NaN
      /\ (~ total_sales (summarize df) == 0 -> exists q, sales_delta d = Fin q /\ q == -100)
      /\ (total_sales (summarize df) == 0 -> sales_delta d = NaN)
      /\ (~ total_profit (summarize df) == 0 -> exists q, profit_delta d = Fin q /\ q == -100)
      /\ (total_profit (summarize df) == 0 -> profit_delta d = NaN).
Proof.
  split; [reflexivity|]. eexists. split; [reflexivity|].
  exact (@empty_selection_deltas (load_data Scenario.csv) next_year _ eq_refl eq_refl).
Defined.

(** X7. When every row passes the filter and the deltas are computed, the
    delta of the order count and the delivery-time delta are 0, and the
    sales and profit deltas are 0 over a baseline that is not 0 and NaN
    over a baseline of 0. *)
Theorem full_selection_deltas df c d :
  filtered_df df c = df ->
  compare (summarize df) (summarize (filtered_df df c)) = Ok d ->
  (exists q, orders_delta d = Fin q /\ q == 0)
  /\ (exists q, delivery_delta d = Fin q /\ q == 0)
  /\ (~ total_sales (summarize df) == 0 -> exists q, sales_delta d = Fin q /\ q == 0)
  /\ (total_sales (summarize df) == 0 -> sales_delta d = NaN)
  /\ (~ total_profit (summarize df) == 0 -> exists q, profit_delta d = Fin q /\ q == 0)
  /\ (total_profit (summarize df) == 0 -> profit_delta d = NaN).
Proof.
  intros E H. rewrite E in H. unfold compare in H.
  unfold int_percent_delta, int_truediv in H.
  destruct (Z.eqb_spec (total_orders (summarize df)) 0) as [E0 | N0]; [discriminate|].
  simpl in H. injection H as <-. simpl.
  assert (Ho : ~ inject_Z (nunique (map order_id df)) == 0).
  { intros Hq. apply N0. unfold Qeq in Hq. simpl in Hq. simpl. lia. }
  assert (Hfin : forall o, ~ o == 0 ->
                 exists q, percent_delta o o = Fin q /\ q == 0).
  { intros o Hnz. eexists. split; [now apply percent_delta_finite|]. now field. }
  assert (Hnan : forall o, o == 0 -> percent_delta o o = NaN).
  { intros o Hz. rewrite (percent_delta_zero_baseline _ Hz).
    apply Qeq_alt in Hz. now rewrite Hz. }
  split; [| split; [| repeat split; auto]].
  - eexists. split; [reflexivity|].
    rewrite Z.sub_diag. now field.
  - destruct df as [|r df]; [exfalso; apply N0; reflexivity|].
    simpl. eexists. split; [reflexivity | ring].
Qed.

Lemma full_selection_deltas_witness :
  let df := load_data Scenario.csv in
  filtered_df df Scenario.crit = df
  /\ exists d,
      compare (summarize df) (summarize (filtered_df df Scenario.crit)) = Ok d
      /\ (exists q, orders_delta d = Fin q /\ q == 0)
      /\ (exists q, delivery_delta d = Fin q /\ q == 0)
      /\ (~ total_sales (summarize df) == 0 -> exists q, sales_delta d = Fin q /\ q == 0)
      /\ (total_sales (summarize df) == 0 -> sales_delta d = NaN)
      /\ (~ total_profit (summarize df) == 0 -> exists q, profit_delta d = Fin q /\ q == 0)
      /\ (total_profit (summarize df) == 0 -> profit_delta d = NaN).
Proof.
  split; [reflexivity|]. eexists. split; [reflexivity|].
  exact (@full_selection_deltas (load_data Scenario.csv) Scenario.crit _ eq_refl eq_refl).
Defined.

Lemma sum_between (l : list Z) (a b : Z) :
  (forall z, In z l -> a <= z <= b)%Z ->
  (Z.of_nat (List.length l) * a <= fold_right Z.add 0 l
   <= Z.of_nat (List.length l) * b)%Z.
Proof.
  induction l as [|z l IH]; intros H.
  - simpl. lia.
  - assert (Hz : (a <= z <= b)%Z) by (apply H; now left).
    assert (Hl : (Z.of_nat (List.length l) * a <= fold_right Z.add 0 l
                  <= Z.of_nat (List.length l) * b)%Z)
      by (apply IH; intros; apply H; now right).
    change (fold_right Z.add 0%Z (z :: l)) with (z + fold_right Z.add 0 l)%Z.
    change (List.length (z :: l)) with (S (List.length l)).
    rewrite Nat2Z.inj_succ. lia.
Qed.

Lemma mean_between (l : list Z) (a b : Z) :
  l <> [] ->
  (forall z, In z l -> a <= z <= b)%Z ->
  exists q, mean l = Fin q /\ inject_Z a <= q <= inject_Z b.
Proof.
  intros Hne Hl. pose proof (sum_between l Hl) as [H1 H2].
  assert (Hn : (0 < Z.of_nat (List.length l))%Z)
    by (destruct l; [congruence | simpl; lia]).
  exists (inject_Z (fold_right Z.add 0%Z l) / inject_Z (Z.of_nat (List.length l))).
  split; [destruct l; [congruence | reflexivity]|].
  remember (fold_right Z.add 0%Z l) as total.
  remember (Z.of_nat (List.length l)) as n.
  assert (Hq : 0 < inject_Z n).
  { replace 0 with (inject_Z 0) by reflexivity. now rewrite <- Zlt_Qlt. }
  split.
  - apply Qle_shift_div_l; [exact Hq|].
    rewrite <- inject_Z_mult, <- Zle_Qle. lia.
  - apply Qle_shift_div_r; [exact Hq|].
    rewrite <- inject_Z_mult, <- Zle_Qle. lia.
Qed.

(** X8. The average delivery time of a set of rows that is not empty is a
    number that lies between the smallest and the largest delivery time of
    the rows; with negative delivery times (shipped before ordered) it can
    be negative. *)
Theorem avg_delivery_between rows a b :
  rows <> [] ->
  (forall r, In r rows -> (a <= delivery_time r <= b)%Z) ->
  exists q, avg_delivery (summarize rows) = Fin q /\ inject_Z a <= q <= inject_Z b.
Proof.
  intros Hne Hb. unfold summarize. simpl avg_delivery.
  apply mean_between.
  - destruct rows; [congruence | discriminate].
  - intros z Hz. apply in_map_iff in Hz as [r [<- Hr]]. now apply Hb.
Qed.

Lemma scenario_delivery_times r :
  In r (load_data Scenario.csv) -> (2 <= delivery_time r <= 3)%Z.
Proof. intros [<- | [<- | []]]; vm_compute; split; discriminate. Qed.

Lemma avg_delivery_between_witness :
  let df := load_data Scenario.csv in
  df <> []
  /\ exists q, avg_delivery (summarize df) = Fin q /\ inject_Z 2 <= q <= inject_Z 3.
Proof.
  assert (H : load_data Scenario.csv <> []) by discriminate.
  split; [exact H | exact (avg_delivery_between H scenario_delivery_times)].
Defined.

(** ** Trend series, continued *)

Lemma last_map {A B : Type} (f : A -> B) (l : list A) (d : B) (d' : A) :
  l <> [] -> last (map f l) d = f (last l d').
Proof.
  induction l as [|a l IH]; intros H; [congruence|].
  destruct l as [|a' l]; [reflexivity|].
  change (last (map f (a :: a' :: l)) d) with (last (map f (a' :: l)) d).
  change (last (a :: a' :: l) d') with (last (a' :: l) d').
  apply IH. discriminate.
Qed.

Lemma bins_between_span lo hi :
  (lo <= hi)%Z ->
  Z.of_nat (List.length (bins_between lo hi)) = (hi - lo + 1)%Z
  /\ hd_error (bins_between lo hi) = Some lo
  /\ forall d, last (bins_between lo hi) d = hi.
Proof.
  intros H. unfold bins_between.
  assert (En : Z.to_nat (hi - lo + 1) = S (Z.to_nat (hi - lo))) by lia.
  rewrite En. split; [| split].
  - rewrite length_map, length_seq. lia.
  - simpl. f_equal. lia.
  - intros d. rewrite seq_S, map_app. simpl. rewrite last_last. lia.
Qed.

(** X10. For rows that are not empty the trend series runs from the bin of
    an earliest row to the bin of a latest row: its first and its last
    entry are theirs, and its length is the number of bins in between,
    ends included (for the daily series, the number of days from the
    earliest to the latest order date). *)
Theorem resample_span rows g :
  rows <> [] ->
  exists r1 r2,
    In r1 rows /\ In r2 rows
    /\ (forall r, In r rows ->
                  (bin g (order_date r1) <= bin g (order_date r) <= bin g (order_date r2))%Z)
    /\ Z.of_nat (List.length (resample rows g))
       = (bin g (order_date r2) - bin g (order_date r1) + 1)%Z
    /\ hd_error (resample rows g) = Some (point rows g (bin g (order_date r1)))
    /\ (forall d, last (resample rows g) d = point rows g (bin g (order_date r2))).
Proof.
  intros Hne. unfold resample.
  destruct (map (fun r => bin g (order_date r)) rows) as [|b bs] eqn:E;
    [destruct rows; [congruence | discriminate]|].
  destruct (fold_min_spec b bs) as [Hmin_in Hmin_le].
  destruct (fold_max_spec b bs) as [Hmax_in Hmax_le].
  set (lo := fold_right Z.min b bs) in *. set (hi := fold_right Z.max b bs) in *.
  assert (Hlh : (lo <= hi)%Z) by (apply Hmax_le; exact Hmin_in).
  rewrite <- E in Hmin_in, Hmax_in.
  apply in_map_iff in Hmin_in as [r1 [E1 Hr1]].
  apply in_map_iff in Hmax_in as [r2 [E2 Hr2]].
  destruct (bins_between_span Hlh) as [Hlen [Hhd Hlast]].
  exists r1, r2. rewrite E1, E2.
  split; [exact Hr1 | split; [exact Hr2 | split; [| split; [| split]]]].
  - intros r Hr.
    assert (Hin : In (bin g (order_date r)) (b :: bs))
      by (rewrite <- E; now apply (in_map (fun r => bin g (order_date r)))).
    split; [now apply Hmin_le | now apply Hmax_le].
  - now rewrite length_map.
  - destruct (bins_between lo hi) as [|p ps]; [discriminate|].
    simpl in *. now injection Hhd as ->.
  - intros d. rewrite (@last_map _ _ (point rows g) (bins_between lo hi) d lo).
    + now rewrite Hlast.
    + destruct (bins_between lo hi); [discriminate | discriminate].
Qed.

Lemma resample_span_witness :
  let rows := load_data Scenario.csv in
  rows <> []
  /\ exists r1 r2,
      In r1 rows /\ In r2 rows
      /\ (forall r, In r rows ->
                    (bin Daily (order_date r1) <= bin Daily (order_date r)
                     <= bin Daily (order_date r2))%Z)
      /\ Z.of_nat (List.length (resample rows Daily))
         = (bin Daily (order_date r2) - bin Daily (order_date r1) + 1)%Z
      /\ hd_error (resample rows Daily) = Some (point rows Daily (bin Daily (order_date r1)))
      /\ (forall d, last (resample rows Daily) d
                    = point rows Daily (bin Daily (order_date r2))).
Proof.
  assert (H : load_data Scenario.csv <> []) by discriminate.
  split; [exact H | exact (@resample_span (load_data Scenario.csv) Daily H)].
Defined.

(** ** Grouped summaries, continued *)

Section GroupByEntries.

Context {K V : Type}.
Variable K_dec : forall a b : K, {a = b} + {a <> b}.
Variable K_leb : K -> K -> bool.
Variable key : row -> K.
Variable agg : list row -> V.

Lemma groupby_fst rows :
  map fst (groupby K_dec K_leb key agg rows) = group_keys K_dec K_leb key rows.
Proof. unfold groupby. rewrite map_map. simpl. apply map_id. Qed.

Lemma groupby_In rows k a :
  In (k, a) (groupby K_dec K_leb key agg rows)
  <-> In k (map key rows) /\ a = agg (filter (in_group K_dec key k) rows).
Proof.
  unfold groupby. rewrite in_map_iff. split.
  - intros [k' [E Hk]]. injection E as -> <-.
    split; [now apply (group_keys_In K_dec K_leb) | reflexivity].
  - intros [Hk ->]. exists k. split; [reflexivity|].
    now apply group_keys_In.
Qed.

Hypothesis K_leb_total : forall a b, K_leb a b = false -> K_leb b a = true.

Lemma insert_key_sorted k ks :
  Sorted (fun a b => K_leb a b = true) ks ->
  Sorted (fun a b => K_leb a b = true) (insert_key K_leb k ks).
Proof.
  induction 1 as [|k' ks Hs IH Hhd]; simpl.
  - repeat constructor.
  - destruct (K_leb k k') eqn:E.
    + constructor; [now constructor | now constructor].
    + constructor; [exact IH|].
      destruct ks as [|k'' ks]; simpl.
      * constructor. now apply K_leb_total.
      * destruct (K_leb k k''); constructor.
        -- now apply K_leb_total.
        -- now inversion Hhd.
Qed.

Lemma sort_keys_sorted ks : Sorted (fun a b => K_leb a b = true) (sort_keys K_leb ks).
Proof.
  induction ks as [|k ks IH]; simpl; [constructor | now apply insert_key_sorted].
Qed.

Lemma groupby_sorted rows :
  Sorted (fun a b => K_leb (fst a) (fst b) = true) (groupby K_dec K_leb key agg rows).
Proof.
  unfold groupby, group_keys.
  generalize (sort_keys_sorted (nodup K_dec (map key rows))).
  generalize (sort_keys K_leb (nodup K_dec (map key rows))).
  induction 1 as [|k ks Hs IH Hhd]; simpl; constructor.
  - exact IH.
  - destruct Hhd; simpl; constructor. assumption.
Qed.

End GroupByEntries.

Lemma sorted_app_all {A : Type} (R : A -> A -> Prop) (l1 l2 : list A) :
  StronglySorted R (l1 ++ l2) ->
  forall x y, In x l1 -> In y l2 -> R x y.
Proof.
  induction l1 as [|a l1 IH]; simpl; intros H x y Hx Hy; [contradiction|].
  inversion H as [|? ? Hs Hall]; subst. destruct Hx as [<- | Hx].
  - rewrite Forall_forall in Hall. apply Hall. apply in_or_app. now right.
  - now apply IH.
Qed.

Lemma group_by_perm rows d m :
  Permutation
    (groupby string_dec String.leb (column d) (fun g => sum (map (value m) g)) rows)
    (group_by rows d m).
Proof. unfold group_by. apply sort_values_desc_perm. Qed.

(** X11. A grouped summary has one entry for each value that occurs in the
    grouping column and no other entry: no key occurs twice, and the
    value of an entry is the sum of the metric over the rows with that
    key. *)
Theorem group_by_entries rows d m :
  NoDup (map fst (group_by rows d m))
  /\ forall k v,
      In (k, v) (group_by rows d m)
      <-> In k (map (column d) rows)
          /\ v = group_sum string_dec (column d) (value m) rows k.
Proof.
  pose proof (group_by_perm rows d m) as Hp. split.
  - eapply Permutation_NoDup; [apply Permutation_map, Hp|].
    rewrite groupby_fst. apply group_keys_NoDup.
  - intros k v. unfold group_sum.
    rewrite <- (groupby_In string_dec String.leb (column d)
                  (fun g => sum (map (value m) g)) rows k v).
    split; apply Permutation_in; [now apply Permutation_sym | exact Hp].
Qed.

(** X12. The charts are built from the filtered rows, so the sales by
    region show selected regions only and the segment breakdown shows
    selected segments only. *)
Theorem chart_keys_selected df c :
  (forall k v, In (k, v) (region_sales (filtered_df df c)) -> In k (selected_regions c))
  /\ (forall k v, In (k, v) (segment_summary (filtered_df df c)) ->
                  In k (selected_segments c)).
Proof.
  split; intros k v H.
  - unfold region_sales in H.
    apply (Permutation_in _ (Permutation_sym (group_by_perm _ Region Sales))) in H.
    apply groupby_In in H as [Hk _]. simpl in Hk.
    apply in_map_iff in Hk as [r [<- Hr]].
    apply filtered_df_In in Hr as [_ [_ [_ Hreg]]]. exact Hreg.
  - unfold segment_summary in H.
    eapply Permutation_in in H; [| apply Permutation_sym, sort_values_desc_perm].
    apply groupby_In in H as [Hk _].
    apply in_map_iff in Hk as [r [<- Hr]].
    apply filtered_df_In in Hr as [_ [_ [Hseg _]]]. exact Hseg.
Qed.

(** X13. What the top [n] leaves out never beats what it shows: an entry
    of the grouped summary that is not among the first [n] has a value at
    most that of every entry among them.  The top products are the case of
    [n = 10], and are at most 10. *)
Theorem top_dominates rows d m n :
  (forall e e',
      In e (top (group_by rows d m) n) ->
      In e' (group_by rows d m) ->
      ~ In e' (top (group_by rows d m) n) ->
      snd e' <= snd e)
  /\ (List.length (top_products rows) <= 10)%nat.
Proof.
  split.
  - intros e e' He He' Hn. unfold top, head in *.
    rewrite <- (firstn_skipn n (group_by rows d m)) in He'.
    apply in_app_or in He' as [He' | He']; [contradiction|].
    assert (Hs : StronglySorted (@desc string Q id_Q)
                   (firstn n (group_by rows d m) ++ skipn n (group_by rows d m))).
    { rewrite firstn_skipn. apply sort_values_desc_sorted. }
    exact (sorted_app_all _ _ Hs e e' He He').
  - unfold top_products, top, head. apply firstn_le_length.
Qed.

Lemma pair_leb_total a b : pair_leb a b = false -> pair_leb b a = true.
Proof.
  unfold pair_leb. rewrite (String.compare_antisym (fst a) (fst b)).
  destruct (String.compare (fst b) (fst a)); simpl; intros H.
  - destruct (String.leb_total (snd a) (snd b)) as [E | E]; [congruence | exact E].
  - reflexivity.
  - discriminate.
Qed.

(** X14. The segment breakdown is ordered by its sales values, never
    increasing; it has one entry for each segment of the rows and no other
    entry, and the entry of a segment carries the sums of the sales and of
    the profit of the rows of that segment. *)
Theorem segment_summary_entries rows :
  StronglySorted (fun a b => fst (snd b) <= fst (snd a)) (segment_summary rows)
  /\ NoDup (map fst (segment_summary rows))
  /\ (forall s, In s (map fst (segment_summary rows)) <-> In s (map segment rows))
  /\ (forall s v,
         In (s, v) (segment_summary rows) ->
         v = (sum (map sales (filter (in_group string_dec segment s) rows)),
              sum (map profit (filter (in_group string_dec segment s) rows)))).
Proof.
  set (g := groupby string_dec String.leb segment
              (fun g => (sum (map sales g), sum (map profit g))) rows).
  assert (Hp : Permutation g (segment_summary rows))
    by (unfold segment_summary; apply sort_values_desc_perm).
  assert (Hk : map fst g = group_keys string_dec String.leb segment rows)
    by apply groupby_fst.
  split; [| split; [| split]].
  - apply (sort_values_desc_sorted (K := string) (fst (B := Q))).
  - eapply Permutation_NoDup; [apply Permutation_map, Hp|].
    rewrite Hk. apply group_keys_NoDup.
  - intros s. rewrite <- (group_keys_In string_dec String.leb segment rows s), <- Hk.
    split; apply Permutation_in; apply Permutation_map;
      [now apply Permutation_sym | exact Hp].
  - intros s v H.
    apply (Permutation_in _ (Permutation_sym Hp)) in H.
    unfold g in H. now apply groupby_In in H as [_ ->].
Qed.

(** X15. The sales per segment and category come in key order (by
    segment, then by category), one entry for each pair that occurs in the
    rows, each with the sales sum of the rows of that pair. *)
Theorem segment_category_in_key_order rows :
  Sorted (fun a b => pair_leb (fst a) (fst b) = true) (segment_category rows)
  /\ NoDup (map fst (segment_category rows))
  /\ (forall s c v,
         In (s, c, v) (segment_category rows)
         <-> (exists r, In r rows /\ segment r = s /\ category r = c)
             /\ v = sum (map sales (filter
                      (fun r => (segment r =? s)%string && (category r =? c)%string) rows))).
Proof.
  unfold segment_category. split; [| split].
  - apply groupby_sorted. apply pair_leb_total.
  - rewrite groupby_fst. apply group_keys_NoDup.
  - intros s c v. rewrite groupby_In, in_map_iff.
    assert (Ef : filter (in_group pair_dec (fun r => (segment r, category r)) (s, c)) rows
                 = filter (fun r => (segment r =? s)%string && (category r =? c)%string) rows).
    { apply filter_ext. intros r. unfold in_group.
      destruct (pair_dec (segment r, category r) (s, c)) as [E | N].
      - injection E as -> ->. now rewrite !String.eqb_refl.
      - destruct (String.eqb_spec (segment r) s) as [E1 |]; [| reflexivity].
        destruct (String.eqb_spec (category r) c) as [E2 |]; [| reflexivity].
        exfalso. apply N. now rewrite E1, E2. }
    rewrite Ef. split.
    + intros [[r [E Hr]] ->]. injection E as <- <-. split; [now exists r | reflexivity].
    + intros [[r [Hr [<- <-]]] ->]. split; [now exists r | reflexivity].
Qed.

(** ** Feedback form *)

Section FeedbackFacts.

Import Feedback.

Lemma lstrip_nil t : lstrip t = [] <-> forallb isspace t = true.
Proof.
  induction t as [|c t IH]; simpl; [tauto|].
  destruct (isspace c); simpl; [exact IH|]. split; discriminate.
Qed.

Lemma lstrip_spaces t : forallb isspace (lstrip t) = forallb isspace t.
Proof.
  induction t as [|c t IH]; simpl; [reflexivity|].
  destruct (isspace c) eqn:E; simpl; [exact IH | now rewrite E].
Qed.

Lemma forallb_rev {A : Type} (f : A -> bool) (l : list A) :
  forallb f (rev l) = forallb f l.
Proof.
  induction l as [|a l IH]; simpl; [reflexivity|].
  rewrite forallb_app, IH. simpl. rewrite andb_true_r. apply andb_comm.
Qed.

(** The stripped text is empty exactly when every character is whitespace. *)
Lemma strip_nil t : strip t = [] <-> forallb isspace t = true.
Proof.
  unfold strip, rstrip. split.
  - intros H. apply (f_equal (@rev N)) in H. rewrite rev_involutive in H. simpl in H.
    apply lstrip_nil in H. rewrite forallb_rev, lstrip_spaces in H. exact H.
  - intros H.
    assert (E : lstrip (rev (lstrip t)) = [])
      by (apply lstrip_nil; now rewrite forallb_rev, lstrip_spaces).
    now rewrite E.
Qed.

Lemma digit_range n : (48 <= digit n <= 57)%N.
Proof.
  unfold digit. pose proof (Nat.mod_upper_bound n 10 ltac:(discriminate)). lia.
Qed.

Lemma strftime_chars now :
  Forall (fun ch => ch <> comma /\ ch <> newline) (strftime now).
Proof.
  unfold strftime, pad4, pad2, comma, newline. simpl.
  repeat constructor;
    try discriminate;
    match goal with
    | |- digit ?n <> _ => pose proof (digit_range n); lia
    end.
Qed.

Lemma count_absent c t : Forall (fun ch => ch <> c) t -> count c t = 0%nat.
Proof.
  intros H. unfold count. apply count_occ_not_In.
  intros Hin. rewrite Forall_forall in H. now apply (H c).
Qed.

Lemma count_app c t1 t2 : count c (t1 ++ t2) = (count c t1 + count c t2)%nat.
Proof. unfold count. apply count_occ_app. Qed.

Lemma replace_comma_no_comma t : count comma (replace_comma t) = 0%nat.
Proof.
  apply count_absent. unfold replace_comma. apply Forall_forall.
  intros ch Hin. apply in_map_iff in Hin as [x [<- _]].
  destruct (N.eqb_spec x comma); [discriminate | assumption].
Qed.

Lemma replace_comma_newlines t : count newline (replace_comma t) = count newline t.
Proof.
  unfold count, replace_comma. induction t as [|x t IH]; simpl; [reflexivity|].
  destruct (N.eqb_spec x comma) as [-> | N].
  - simpl. exact IH.
  - destruct (N.eq_dec x newline); now rewrite IH.
Qed.

Lemma entry_counts now feedback :
  count comma (entry now feedback) = 1%nat
  /\ count newline (entry now feedback) = S (count newline feedback).
Proof.
  unfold entry. rewrite !count_app, replace_comma_no_comma, replace_comma_newlines.
  pose proof (strftime_chars now) as H.
  rewrite (count_absent (c := comma)), (count_absent (c := newline)).
  - split; simpl; lia.
  - eapply Forall_impl; [| exact H]. simpl. tauto.
  - eapply Forall_impl; [| exact H]. simpl. tauto.
Qed.

Lemma submit_accepts now feedback file :
  forallb isspace feedback = false ->
  submit true now feedback file
  = (Some (match file with None => header | Some content => content end
           ++ entry now feedback), Some Success).
Proof.
  intros H. unfold submit.
  destruct (strip feedback) eqn:E; [| reflexivity].
  apply strip_nil in E. congruence.
Qed.

Lemma submit_rejects now feedback file :
  forallb isspace feedback = true ->
  submit true now feedback file = (file, Some Warning).
Proof. intros H. unfold submit. apply strip_nil in H. now rewrite H. Qed.

(** X16. Pressing the button writes the feedback exactly when it holds a
    character that is not whitespace: then the entry is appended to the
    content the file had, or to the header line when the file did not
    exist, and the success notice is shown.  A feedback of whitespace only
    (or an empty one) leaves the file as it was (missing, if it was
    missing) and shows the warning; without a press nothing happens. *)
Theorem submit_writes_nonblank now feedback file :
  (forallb isspace feedback = false ->
   submit true now feedback file
   = (Some (match file with None => header | Some content => content end
            ++ entry now feedback), Some Success))
  /\ (forallb isspace feedback = true ->
      submit true now feedback file = (file, Some Warning))
  /\ submit false now feedback file = (file, None).
Proof.
  split; [apply submit_accepts | split; [apply submit_rejects | reflexivity]].
Qed.

(** X17. An entry has exactly one comma, the one after the timestamp: the
    commas of the feedback are written as semicolons.  Its line breaks are
    written as they are, so an entry ends in one line break and holds as
    many more as the feedback does. *)
Theorem entry_has_one_comma now feedback :
  count comma (entry now feedback) = 1%nat
  /\ count newline (entry now feedback) = S (count newline feedback)
  /\ List.length (entry now feedback) = (21 + List.length feedback)%nat
  /\ exists rest, entry now feedback = strftime now ++ comma :: rest
                  /\ count comma (strftime now) = 0%nat.
Proof.
  destruct (entry_counts now feedback) as [Hc Hn].
  split; [exact Hc | split; [exact Hn | split]].
  - unfold entry, replace_comma. rewrite !length_app, length_map. simpl. lia.
  - exists (replace_comma feedback ++ [newline]). split; [reflexivity|].
    apply count_absent. eapply Forall_impl; [| apply strftime_chars]. simpl. tauto.
Qed.

Lemma nonspace_exists fb :
  existsb (fun ch => negb (isspace ch)) fb = negb (forallb isspace fb).
Proof.
  induction fb as [|ch fb IH]; simpl; [reflexivity|].
  rewrite IH. now destruct (isspace ch).
Qed.

Lemma submit_all_cons s l file :
  submit_all (s :: l) file = submit_all l (fst (submit true (fst s) (snd s) file)).
Proof. reflexivity. Qed.

Lemma accepted_cons s l :
  accepted (s :: l)
  = if forallb isspace (snd s) then accepted l else s :: accepted l.
Proof.
  unfold accepted. cbn [filter]. rewrite nonspace_exists.
  set (b := forallb isspace (snd s)).
  change (forallb isspace (snd s)) with b.
  destruct b; reflexivity.
Qed.

Lemma submit_all_some l content :
  submit_all l (Some content)
  = Some (content ++ List.concat (map (fun s => entry (fst s) (snd s)) (accepted l))).
Proof.
  revert content. induction l as [|s l IH]; intros content.
  - simpl. now rewrite app_nil_r.
  - rewrite submit_all_cons, accepted_cons.
    destruct (forallb isspace (snd s)) eqn:E.
    + rewrite (@submit_rejects (fst s) (snd s) (Some content) E). simpl fst. apply IH.
    + rewrite (@submit_accepts (fst s) (snd s) (Some content) E). simpl fst.
      rewrite IH. simpl. now rewrite <- app_assoc.
Qed.

Lemma submit_all_none l :
  submit_all l None
  = match accepted l with
    | [] => None
    | _ :: _ =>
        Some (header ++ List.concat (map (fun s => entry (fst s) (snd s)) (accepted l)))
    end.
Proof.
  induction l as [|s l IH]; [reflexivity|].
  rewrite submit_all_cons, accepted_cons.
  destruct (forallb isspace (snd s)) eqn:E.
  - rewrite (@submit_rejects (fst s) (snd s) None E). simpl fst. exact IH.
  - rewrite (@submit_accepts (fst s) (snd s) None E). simpl fst.
    rewrite submit_all_some. simpl. now rewrite <- app_assoc.
Qed.

Lemma entries_commas l :
  count comma (List.concat (map (fun s => entry (fst s) (snd s)) l)) = List.length l.
Proof.
  induction l as [|s l IH]; [reflexivity|].
  change (count comma (entry (fst s) (snd s)
                       ++ List.concat (map (fun s => entry (fst s) (snd s)) l))
          = S (List.length l)).
  rewrite count_app, IH. now rewrite (proj1 (entry_counts (fst s) (snd s))).
Qed.

(** X18. Starting without the file, after any series of presses: the file
    is still missing when no feedback was accepted; otherwise it is the
    header line followed by the entries of the accepted feedbacks, in the
    order of the presses, and it holds one comma for the header and one
    for each entry.  A file that exists is only ever extended. *)
Theorem feedback_log_invariant l :
  (accepted l = [] -> submit_all l None = None)
  /\ (accepted l <> [] ->
      submit_all l None
      = Some (header ++ List.concat (map (fun s => entry (fst s) (snd s)) (accepted l))))
  /\ (forall content, submit_all l None = Some content ->
                      count comma content = S (List.length (accepted l)))
  /\ (forall old, exists added, submit_all l (Some old) = Some (old ++ added)).
Proof.
  pose proof (submit_all_none l) as H.
  split; [| split; [| split]].
  - intros E. now rewrite E in H.
  - intros N. destruct (accepted l); [congruence | exact H].
  - intros content Hc. rewrite H in Hc.
    destruct (accepted l) as [|s a] eqn:E; [discriminate|].
    apply (f_equal (fun o => match o with
                             | Some x => count comma x
                             | None => 0%nat
                             end)) in Hc.
    rewrite <- Hc, count_app, entries_commas. reflexivity.
  - intros old. eexists. apply submit_all_some.
Qed.

End FeedbackFacts.

(** X19. A run of the script changes the feedback file only when the
    dashboard part has ended normally, the button was pressed and the
    feedback holds a character that is not whitespace.  In particular no
    feedback is written while the segment or region selection is empty. *)
Theorem script_writes_after_dashboard df c t pressed now feedback file :
  snd (script df c t pressed now feedback file) <> file ->
  (exists v, dashboard df c t = Ok v)
  /\ complete c
  /\ pressed = true
  /\ forallb Feedback.isspace feedback = false.
Proof.
  unfold script. intros H.
  destruct (dashboard df c t) as [v|e] eqn:Ed; [| now contradiction H].
  assert (Hc : complete c).
  { unfold dashboard, validation in Ed. unfold complete.
    destruct (selected_segments c); [discriminate Ed|].
    destruct (selected_regions c); [discriminate Ed|].
    split; discriminate. }
  destruct pressed; [| now contradiction H].
  destruct (forallb Feedback.isspace feedback) eqn:E.
  - rewrite (@submit_rejects now feedback file E) in H. now contradiction H.
  - split; [now exists v | split; [exact Hc | split; reflexivity]].
Qed.

Lemma script_writes_after_dashboard_witness :
  let df := load_data Scenario.csv in
  let now := Feedback.Datetime 2025 7 15 9 30 0 in
  let feedback := Feedback.of_string "Clear, useful charts" in
  snd (script df Scenario.crit Scenario.all_charts true now feedback None) <> None
  /\ (exists v, dashboard df Scenario.crit Scenario.all_charts = Ok v)
  /\ complete Scenario.crit
  /\ true = true
  /\ forallb Feedback.isspace feedback = false.
Proof.
  assert (H : snd (script (load_data Scenario.csv) Scenario.crit Scenario.all_charts true
                     (Feedback.Datetime 2025 7 15 9 30 0)
                     (Feedback.of_string "Clear, useful charts") None) <> None)
    by discriminate.
  split; [exact H|].
  exact (@script_writes_after_dashboard (load_data Scenario.csv) Scenario.crit
           Scenario.all_charts true (Feedback.Datetime 2025 7 15 9 30 0)
           (Feedback.of_string "Clear, useful charts") None H).
Defined.

(** ** Widget options *)

Lemma remove_NoDup x l : NoDup l -> NoDup (remove string_dec x l).
Proof.
  induction 1 as [|a l Ha Hnd IH]; simpl; [constructor|].
  destruct (string_dec x a); [exact IH|].
  constructor; [| exact IH].
  intros H. apply in_remove in H as [H _]. contradiction.
Qed.

Lemma unique_NoDup l : NoDup (unique l).
Proof.
  induction l as [|x l IH]; simpl; constructor.
  - apply remove_In.
  - now apply remove_NoDup.
Qed.

(** X21. The options offered for the segments are the segments that occur
    in the data frame, each once, beginning with the segment of the first
    row, and likewise for the regions. *)
Theorem widget_options df :
  NoDup (segments df)
  /\ NoDup (regions df)
  /\ (forall s, In s (segments df) <-> exists r, In r df /\ segment r = s)
  /\ (forall s, In s (regions df) <-> exists r, In r df /\ region r = s)
  /\ hd_error (segments df) = hd_error (map segment df)
  /\ hd_error (regions df) = hd_error (map region df).
Proof.
  split; [apply unique_NoDup | split; [apply unique_NoDup | split; [| split; [| split]]]].
  - intros s. unfold segments. rewrite unique_In, in_map_iff.
    split; intros [r [H1 H2]]; exists r; tauto.
  - intros s. unfold regions. rewrite unique_In, in_map_iff.
    split; intros [r [H1 H2]]; exists r; tauto.
  - unfold segments. now destruct (map segment df).
  - unfold regions. now destruct (map region df).
Qed.
